(** * Image-Card-HTML-Downloader: the document-decomposition core

    A shallow embedding of [utils/parser.ts] ([extractArtifacts] and
    [parseHtmlForPreview]) together with the parts of the JavaScript platform
    the two functions call: strings, the regular expressions written in the
    source, and a read-only DOM tree.

    Conventions.
    - A JavaScript string is a [string]: one [ascii] per code unit, so the
      development speaks about texts whose code units are below 256.
    - [Date.now()] is an argument ([now : Z]) of [extractArtifacts]; array
      indices are [nat], and both print in decimal.
    - [DOMParser.parseFromString] is a parameter of the development (a
      function from the block text to a thrown error or a document); the DOM
      accessors the source calls on the parsed tree are defined here on the
      tree.
    - The [artifacts] array is the state of a small state-and-exception
      monad: what was pushed before an exception stays pushed.

    The file has two parts: the definitions (platform, source, an example
    parser, the vocabulary of the statements), then the lemmas and the
    theorems about [extractArtifacts] and [parseHtmlForPreview]. *)

From Stdlib Require Import String Ascii List Bool Arith ZArith Lia.
From Stdlib Require Decimal DecimalNat.
From Stdlib Require Import DecimalString.
Import ListNotations.
Local Open Scope list_scope.
Local Open Scope string_scope.

Set Implicit Arguments.
Set Warnings "-register-all".

(* ================================================================== *)
(** * JavaScript strings *)
(* ================================================================== *)

Module Js.

(** The double quote and the line feed, built from their codes. *)
Definition dq : string := String "034"%char EmptyString.
Definition nl : string := String "010"%char EmptyString.

Definition code (a : ascii) : nat := nat_of_ascii a.

Definition between (lo hi : nat) (a : ascii) : bool :=
  ((lo <=? code a) && (code a <=? hi))%nat.

Definition isUpperAscii (a : ascii) : bool := between 65 90 a.
Definition isLowerAscii (a : ascii) : bool := between 97 122 a.
Definition isDigit (a : ascii) : bool := between 48 57 a.

(** ASCII case folding, the one the regular-expression flag [i] and
    [Element.tagName] use for ASCII letters. *)
Definition asciiLower (a : ascii) : ascii :=
  if isUpperAscii a then ascii_of_nat (code a + 32) else a.
Definition asciiUpper (a : ascii) : ascii :=
  if isLowerAscii a then ascii_of_nat (code a - 32) else a.

(** [String.prototype.toLowerCase] on code units below 256: the ASCII letters
    and the Latin-1 capitals U+00C0..U+00DE (U+00D7, the multiplication sign,
    apart). *)
Definition lowerUnit (a : ascii) : ascii :=
  if isUpperAscii a then ascii_of_nat (code a + 32)
  else if between 192 222 a && negb (code a =? 215)%nat then ascii_of_nat (code a + 32)
  else a.

Fixpoint mapUnits (f : ascii -> ascii) (s : string) : string :=
  match s with
  | EmptyString => EmptyString
  | String a r => String (f a) (mapUnits f r)
  end.

Definition toLowerCase : string -> string := mapUnits lowerUnit.
Definition asciiUpperCase : string -> string := mapUnits asciiUpper.

(** White space and line terminators below U+0100: what [trim] strips and
    what the class [\s] matches. *)
Definition isWhite (a : ascii) : bool :=
  between 9 13 a || (code a =? 32)%nat || (code a =? 160)%nat.

Fixpoint trimStart (s : string) : string :=
  match s with
  | EmptyString => EmptyString
  | String a r => if isWhite a then trimStart r else s
  end.

Fixpoint trimEnd (s : string) : string :=
  match s with
  | EmptyString => EmptyString
  | String a r =>
      match trimEnd r with
      | EmptyString => if isWhite a then EmptyString else String a EmptyString
      | r' => String a r'
      end
  end.

Definition trim (s : string) : string := trimEnd (trimStart s).

(** [hay.includes(needle)]. *)
Fixpoint includes (hay needle : string) : bool :=
  prefix needle hay ||
  match hay with
  | EmptyString => false
  | String _ r => includes r needle
  end.

(** [s.substring(0, n)]. *)
Definition take (n : nat) (s : string) : string := substring 0 n s.

Definition isEmpty (s : string) : bool :=
  match s with EmptyString => true | _ => false end.

(** A string is falsy exactly when it is empty. *)
Definition truthy (s : string) : bool :=
  match s with EmptyString => false | _ => true end.

(** [a || b] on strings. *)
Definition orElse (a b : string) : string := if truthy a then a else b.

(** [Number.prototype.toString] on the integers the source prints. *)
Definition showNat (n : nat) : string := NilEmpty.string_of_uint (Nat.to_uint n).
Definition showZ (z : Z) : string := NilEmpty.string_of_int (Z.to_int z).

Fixpoint rev_append (s acc : string) : string :=
  match s with
  | EmptyString => acc
  | String a r => rev_append r (String a acc)
  end.
Definition rev (s : string) : string := rev_append s EmptyString.

(** Every code unit of the string is in the class. *)
Fixpoint allUnits (p : ascii -> bool) (s : string) : bool :=
  match s with
  | EmptyString => true
  | String a r => p a && allUnits p r
  end.

(** The code unit [c] does not occur in the string. *)
Definition without (c : ascii) (s : string) : bool :=
  allUnits (fun a => negb (Ascii.eqb a c)) s.

Fixpoint join (sep : string) (l : list string) : string :=
  match l with
  | [] => EmptyString
  | [x] => x
  | x :: r => x ++ sep ++ join sep r
  end.

End Js.

(* ================================================================== *)
(** * Regular expressions

    The fragment of ECMAScript regular expressions the source uses, with the
    backtracking semantics of the language: ordered alternatives, greedy and
    lazy repetition of a character class, the assertions [^] and [\b], and
    one capture group. *)
(* ================================================================== *)

Module Re.

Inductive regex : Type :=
| Eps                                          (* the empty pattern *)
| Chr (p : ascii -> bool)                      (* one code unit of a class *)
| Seq (r1 r2 : regex)
| Alt (r1 r2 : regex)                          (* r1|r2, r1 tried first *)
| Star (greedy : bool) (p : ascii -> bool)     (* class* and class*? *)
| Bol                                          (* ^ without the flag m *)
| WordB                                        (* \b *)
| Group (r : regex).                           (* capture group 1 *)

(** Character classes. *)
Definition any (_ : ascii) : bool := true.                     (* [\s\S] *)
Definition only (c a : ascii) : bool := Ascii.eqb a c.
Definition isCi (c a : ascii) : bool :=
  Ascii.eqb (Js.asciiLower a) (Js.asciiLower c).
Definition letterCi (a : ascii) : bool :=                      (* [a-z] with i *)
  Js.isLowerAscii a || Js.isUpperAscii a.
Definition dot (a : ascii) : bool :=                           (* . *)
  negb (Ascii.eqb a "010"%char || Ascii.eqb a "013"%char).
Definition wordChar (a : ascii) : bool :=                      (* \w *)
  Js.isLowerAscii a || Js.isUpperAscii a || Js.isDigit a || Ascii.eqb a "_"%char.

(** A literal, case-sensitive or under the flag [i]. *)
Fixpoint lit (ci : bool) (s : string) : regex :=
  match s with
  | EmptyString => Eps
  | String c r => Seq (Chr (if ci then isCi c else only c)) (lit ci r)
  end.

(** A position in the subject is given by the text before it, last unit
    first, and the text from it on.  Is the unit next to the position, on
    either side, a word character? *)
Definition isWordAt (s : string) : bool :=
  match s with String a _ => wordChar a | EmptyString => false end.

(** The end of a match: position and capture. *)
Record outcome : Type := Outcome {
  o_before : string;
  o_rest : string;
  o_group : option string
}.

Definition cont : Type := string -> string -> option string -> option outcome.

Fixpoint star (greedy : bool) (p : ascii -> bool) (bef s : string)
              (k : string -> string -> option outcome) : option outcome :=
  let stop := k bef s in
  let more :=
    match s with
    | String a r => if p a then star greedy p (String a bef) r k else None
    | EmptyString => None
    end in
  if greedy
  then match more with Some o => Some o | None => stop end
  else match stop with Some o => Some o | None => more end.

Fixpoint run (r : regex) (bef s : string) (g : option string) (k : cont)
  : option outcome :=
  match r with
  | Eps => k bef s g
  | Chr p =>
      match s with
      | String a s' => if p a then k (String a bef) s' g else None
      | EmptyString => None
      end
  | Seq r1 r2 => run r1 bef s g (fun bef' s' g' => run r2 bef' s' g' k)
  | Alt r1 r2 =>
      match run r1 bef s g k with
      | Some o => Some o
      | None => run r2 bef s g k
      end
  | Star greedy p => star greedy p bef s (fun bef' s' => k bef' s' g)
  | Bol => match bef with EmptyString => k bef s g | _ => None end
  | WordB => if xorb (isWordAt bef) (isWordAt s) then k bef s g else None
  | Group r1 =>
      run r1 bef s g
          (fun bef' s' _ =>
             k bef' s' (Some (Js.take (String.length s - String.length s') s)))
  end.

(** One match: the text before it, the matched text, group 1, the text after. *)
Record rmatch : Type := RMatch {
  m_pre : string;
  m_text : string;
  m_group : option string;
  m_post : string
}.

(** A match starting exactly at the position. *)
Definition matchHere (r : regex) (bef s : string) : option rmatch :=
  match run r bef s None (fun bef' s' g => Some (Outcome bef' s' g)) with
  | Some o =>
      Some (RMatch (Js.rev bef)
                   (Js.take (String.length s - String.length (o_rest o)) s)
                   (o_group o) (o_rest o))
  | None => None
  end.

(** [re.exec(s)] for a fresh regular expression: the leftmost match. *)
Fixpoint execFrom (r : regex) (bef s : string) : option rmatch :=
  match matchHere r bef s with
  | Some m => Some m
  | None =>
      match s with
      | String a s' => execFrom r (String a bef) s'
      | EmptyString => None
      end
  end.

Definition exec (r : regex) (s : string) : option rmatch := execFrom r EmptyString s.

(** [re.test(s)]. *)
Definition test (r : regex) (s : string) : bool :=
  match exec r s with Some _ => true | None => false end.

(** [[...s.matchAll(re)]] under the flag [g]: the matches from left to
    right, each search starting where the previous match ended (one unit
    further after an empty match).  [skip] counts the units of the current
    match still to be passed over. *)
Fixpoint matchAllFrom (r : regex) (bef s : string) (skip : nat) : list rmatch :=
  match skip with
  | S n =>
      match s with
      | String a s' => matchAllFrom r (String a bef) s' n
      | EmptyString => []
      end
  | O =>
      match matchHere r bef s with
      | Some m =>
          m :: match s with
               | String a s' =>
                   matchAllFrom r (String a bef) s' (String.length (m_text m) - 1)
               | EmptyString => []
               end
      | None =>
          match s with
          | String a s' => matchAllFrom r (String a bef) s' 0
          | EmptyString => []
          end
      end
  end.

Definition matchAll (r : regex) (s : string) : list rmatch :=
  matchAllFrom r EmptyString s 0.

(** The replacement text of one match (GetSubstitution) for a regular
    expression with one capture group and no named groups. *)
Definition groupText (m : rmatch) : string :=
  match m_group m with Some g => g | None => EmptyString end.

Fixpoint substitute (tpl : string) (m : rmatch) : string :=
  match tpl with
  | String "$" (String "$" r) => String "$" (substitute r m)
  | String "$" (String "&" r) => m_text m ++ substitute r m
  | String "$" (String "`" r) => m_pre m ++ substitute r m
  | String "$" (String "'" r) => m_post m ++ substitute r m
  | String "$" (String "0" (String "1" r)) => groupText m ++ substitute r m
  | String "$" (String "1" r) => groupText m ++ substitute r m
  | String a r => String a (substitute r m)
  | EmptyString => EmptyString
  end.

(** [s.replace(re, tpl)] under the flag [g]. *)
Fixpoint replaceFrom (r : regex) (tpl : string) (bef s : string) (skip : nat)
  : string :=
  match skip with
  | S n =>
      match s with
      | String a s' => replaceFrom r tpl (String a bef) s' n
      | EmptyString => EmptyString
      end
  | O =>
      match matchHere r bef s with
      | Some m =>
          substitute tpl m ++
          match s with
          | String a s' =>
              let tail :=
                replaceFrom r tpl (String a bef) s' (String.length (m_text m) - 1) in
              match m_text m with
              | EmptyString => String a tail
              | _ => tail
              end
          | EmptyString => EmptyString
          end
      | None =>
          match s with
          | String a s' => String a (replaceFrom r tpl (String a bef) s' 0)
          | EmptyString => EmptyString
          end
      end
  end.

Definition replaceAll (r : regex) (tpl s : string) : string :=
  replaceFrom r tpl EmptyString s 0.

End Re.

(* ================================================================== *)
(** * The DOM tree

    The parsed document as a read-only tree, and the accessors the source
    calls on it, after the DOM and HTML standards. *)
(* ================================================================== *)

Module Dom.

Inductive namespace : Type := HTML | SVG | MathML.

Inductive node : Type :=
| Element (ns : namespace) (localName : string)
          (attrs : list (string * string)) (kids : list node)
| Text (data : string)
| Comment (data : string).

(** What a property read may give back: a string, or an object (an SVG
    element's [className] is an [SVGAnimatedString]). *)
Inductive jsval : Type :=
| JsString (s : string)
| JsObject.

(** The head and the body of the document [parseFromString] returns. *)
Record document : Type := Document { head : node; body : node }.

Definition isElement (n : node) : bool :=
  match n with Element _ _ _ _ => true | _ => false end.

Definition isHtml (ns : namespace) : bool :=
  match ns with HTML => true | _ => false end.

Definition isHtmlNamed (names : list string) (n : node) : bool :=
  match n with
  | Element HTML nm _ _ => existsb (String.eqb nm) names
  | _ => false
  end.

(** The child nodes of a node.  The content of a [template] element lives in
    a separate fragment: the element itself has no child. *)
Definition childNodes (n : node) : list node :=
  match n with
  | Element _ _ _ ks => if isHtmlNamed ["template"] n then [] else ks
  | _ => []
  end.

(** [el.children]: the child nodes that are elements. *)
Definition children (n : node) : list node := filter isElement (childNodes n).

(** [el.tagName]: the qualified name, in ASCII upper case for an HTML element. *)
Definition tagName (n : node) : string :=
  match n with
  | Element ns nm _ _ => if isHtml ns then Js.asciiUpperCase nm else nm
  | _ => EmptyString
  end.

Fixpoint lookupAttr (name : string) (l : list (string * string)) : option string :=
  match l with
  | [] => None
  | (k, v) :: r => if String.eqb k name then Some v else lookupAttr name r
  end.

(** [el.getAttribute(name)], for a lower-case [name]; [None] is [null]. *)
Definition getAttribute (n : node) (name : string) : option string :=
  match n with
  | Element _ _ attrs _ => lookupAttr name attrs
  | _ => None
  end.

(** [el.className]: the [class] attribute (the empty string when absent),
    but an object on an SVG element. *)
Definition className (n : node) : jsval :=
  match n with
  | Element SVG _ _ _ => JsObject
  | _ => JsString (match getAttribute n "class" with Some v => v | None => EmptyString end)
  end.

(** The descendants of a node, in tree order. *)
Fixpoint descendants (n : node) : list node :=
  match n with
  | Element _ _ _ ks =>
      if isHtmlNamed ["template"] n then []
      else (fix go (l : list node) : list node :=
              match l with
              | [] => []
              | k :: r => k :: descendants k ++ go r
              end%list) ks
  | _ => []
  end.

(** A type selector as the source writes them (lower case, no namespace). *)
Definition hasLocalName (names : list string) (n : node) : bool :=
  match n with
  | Element _ nm _ _ => existsb (String.eqb nm) names
  | _ => false
  end.

(** [el.querySelector(sel)] and [el.querySelectorAll(sel)] for a list of type
    selectors. *)
Definition querySelector (n : node) (names : list string) : option node :=
  find (hasLocalName names) (descendants n).
Definition querySelectorAll (n : node) (names : list string) : list node :=
  filter (hasLocalName names) (descendants n).

(** [node.textContent]: the data of the text descendants, in tree order. *)
Definition textData (n : node) : string :=
  match n with Text d => d | _ => EmptyString end.
Definition textContent (n : node) : string :=
  match n with
  | Element _ _ _ _ => String.concat EmptyString (map textData (descendants n))
  | Text d => d
  | Comment d => d
  end.

(** ** Serialization (the HTML fragment serialization algorithm, with the
    escaping rules of the current HTML standard) *)

Fixpoint escape (attrMode : bool) (s : string) : string :=
  match s with
  | EmptyString => EmptyString
  | String a r =>
      (if Ascii.eqb a "&" then "&amp;"
       else if Ascii.eqb a "160" then "&nbsp;"
       else if Ascii.eqb a "<" then "&lt;"
       else if Ascii.eqb a ">" then "&gt;"
       else if attrMode && Ascii.eqb a "034" then "&quot;"
       else String a EmptyString) ++ escape attrMode r
  end.

Fixpoint serializeAttrs (l : list (string * string)) : string :=
  match l with
  | [] => EmptyString
  | (k, v) :: r => " " ++ k ++ "=" ++ Js.dq ++ escape true v ++ Js.dq ++ serializeAttrs r
  end.

Definition voidNames : list string :=
  ["area"; "base"; "basefont"; "bgsound"; "br"; "col"; "embed"; "frame"; "hr";
   "img"; "input"; "keygen"; "link"; "meta"; "param"; "source"; "track"; "wbr"].

Definition rawTextNames : list string :=
  ["style"; "script"; "xmp"; "iframe"; "noembed"; "noframes"; "plaintext"].

Fixpoint serializeNode (raw : bool) (n : node) : string :=
  match n with
  | Text d => if raw then d else escape false d
  | Comment d => "<!--" ++ d ++ "-->"
  | Element ns nm attrs ks =>
      "<" ++ nm ++ serializeAttrs attrs ++ ">" ++
      (if isHtml ns && existsb (String.eqb nm) voidNames then EmptyString
       else
         (fix go (l : list node) : string :=
            match l with
            | [] => EmptyString
            | k :: r =>
                serializeNode (isHtml ns && existsb (String.eqb nm) rawTextNames) k
                ++ go r
            end) ks
         ++ "</" ++ nm ++ ">")
  end.

(** [el.outerHTML]. *)
Definition outerHTML (n : node) : string := serializeNode false n.

(** [el.innerHTML]. *)
Definition innerHTML (n : node) : string :=
  match n with
  | Element ns nm _ ks =>
      String.concat EmptyString
        (map (serializeNode (isHtml ns && existsb (String.eqb nm) rawTextNames)) ks)
  | _ => EmptyString
  end.

End Dom.

(* ================================================================== *)
(** * Effects: the [artifacts] array and exceptions *)
(* ================================================================== *)

Inductive exn : Type :=
| TypeError
| ReferenceError
| DOMException.

(** A computation that may throw. *)
Definition res (A : Type) : Type := (exn + A)%type.

Definition rbind {A B} (c : res A) (f : A -> res B) : res B :=
  match c with inl e => inl e | inr a => f a end.

Notation "x <-- c ;; k" := (rbind c (fun x => k))
  (at level 61, c at next level, right associativity).

(** [arr.some(f)] with a callback that may throw: it stops at the first
    element the callback accepts. *)
Fixpoint some {A} (f : A -> res bool) (l : list A) : res bool :=
  match l with
  | [] => inr false
  | x :: r => b <-- f x ;; if b then inr true else some f r
  end.

Module Eff.
Section WithState.
Variable St : Type.

(** A computation over a mutable store; what it wrote before throwing stays
    written. *)
Definition M (A : Type) : Type := St -> res A * St.

Definition ret {A} (a : A) : M A := fun st => (inr a, st).
Definition bind {A B} (c : M A) (f : A -> M B) : M B :=
  fun st => match c st with
            | (inr a, st') => f a st'
            | (inl e, st') => (inl e, st')
            end.
Definition lift {A} (c : res A) : M A := fun st => (c, st).
Definition modify (f : St -> St) : M unit := fun st => (inr tt, f st).

(** [try { body } catch (e) { handler(e) }]. *)
Definition tryCatch (body : M unit) (handler : exn -> M unit) : M unit :=
  fun st => match body st with
            | (inl e, st') => handler e st'
            | r => r
            end.

(** [arr.forEach((x, i) => f x i)], counting from [i]. *)
Fixpoint forEachFrom {A} (f : A -> nat -> M unit) (i : nat) (l : list A) : M unit :=
  match l with
  | [] => ret tt
  | x :: r => bind (f x i) (fun _ => forEachFrom f (S i) r)
  end.
Definition forEach {A} (f : A -> nat -> M unit) (l : list A) : M unit :=
  forEachFrom f 0 l.

End WithState.
End Eff.

Notation "x <- c ;; k" := (Eff.bind c (fun x => k))
  (at level 61, c at next level, right associativity).

(* ================================================================== *)
(** * The source: [utils/parser.ts] *)
(* ================================================================== *)

Import Dom.

(** The record of [types.ts]. *)
Inductive ArtifactType : Type := html | unknown.

Record Artifact : Type := mkArtifact {
  id : string;
  code : string;
  title : string;
  type : ArtifactType
}.

Record ParsedHtml : Type := mkParsedHtml {
  styles : string;
  bodyContent : string
}.

(** The regular expressions of the source, in the order they appear. *)
Module Pat.
Import Re.

(** [/```html([\s\S]*?)```/gi] *)
Definition fence : regex :=
  Seq (lit true "```html") (Seq (Group (Star false any)) (lit true "```")).

(** [/(<!DOCTYPE html>[\s\S]*?<\/html>|<html[\s\S]*?<\/html>)/gi] *)
Definition rawDocument : regex :=
  Group (Alt (Seq (lit true "<!DOCTYPE html>") (Seq (Star false any) (lit true "</html>")))
             (Seq (lit true "<html") (Seq (Star false any) (lit true "</html>")))).

(** [/<[a-z][\s\S]*>/i] *)
Definition markup : regex :=
  Seq (lit true "<") (Seq (Chr letterCi) (Seq (Star true any) (lit true ">"))).

Fixpoint oneOf (w : string) (more : list string) : regex :=
  match more with
  | [] => lit false w
  | w' :: r => Alt (lit false w) (oneOf w' r)
  end.

(** [/wrapper|container|list|grid|group|collection/] *)
Definition wrapperName : regex :=
  oneOf "wrapper" ["container"; "list"; "grid"; "group"; "collection"].

(** [/card|slide|page|section|item/] *)
Definition cardClass : regex :=
  oneOf "card" ["slide"; "page"; "section"; "item"].

(** [/\bcard\b/] *)
Definition cardWord : regex := Seq WordB (Seq (lit false "card") WordB).

(** [/<title>(.*?)<\/title>/i] *)
Definition titleTag : regex :=
  Seq (lit true "<title>") (Seq (Group (Star false dot)) (lit true "</title>")).

(** [/(^|}|,)\s*body/g] *)
Definition bodySelector : regex :=
  Seq (Group (Alt Bol (Alt (Chr (only "}")) (Chr (only ",")))))
      (Seq (Star true Js.isWhite) (lit false "body")).

End Pat.

(** [(el.className || '').toLowerCase()]: a [TypeError] when [className] is
    an object, which has no method [toLowerCase]. *)
Definition classLower (el : node) : res string :=
  match className el with
  | JsString s => inr (Js.toLowerCase (Js.orElse s EmptyString))
  | JsObject => inl TypeError
  end.

(** Helper to determine if an element looks like a card container
    ([el.className.toLowerCase()], without the guard). *)
Definition isCardContainer (el : node) : res bool :=
  match className el with
  | JsString s =>
      let className := Js.toLowerCase s in
      inr (Js.includes className "card" ||
           Js.includes className "container" ||
           Js.includes className "section" ||
           String.eqb (tagName el) "DIV" || String.eqb (tagName el) "SECTION")
  | JsObject => inl TypeError
  end.

(** 1. Detect blocks (Markdown or raw). *)
Definition mdMatches (text : string) : list Re.rmatch := Re.matchAll Pat.fence text.
Definition rawMatches (text : string) : list Re.rmatch := Re.matchAll Pat.rawDocument text.

Definition blocks (text : string) : list string :=
  if (0 <? length (mdMatches text))%nat then
    map (fun m => Js.trim (Re.groupText m)) (mdMatches text)
  else if (0 <? length (rawMatches text))%nat then
    map (fun m => Js.trim (Re.m_text m)) (rawMatches text)
  else
    let trimmed := Js.trim text in
    if Re.test Pat.markup trimmed &&
       (Js.includes trimmed "<div" || Js.includes trimmed "<style")
    then [trimmed] else [].

(** Filter helper to get significant DOM elements. *)
Definition getMeaningfulChildren (el : node) : list node :=
  filter (fun child =>
            negb (existsb (String.eqb (tagName child))
                    ["SCRIPT"; "STYLE"; "LINK"; "META"; "BR"; "NOSCRIPT"; "TEMPLATE"]))
         (children el).

Definition isWrapperName (containerClass : string) : bool :=
  Re.test Pat.wrapperName containerClass.

Definition childrenHaveCardClass (innerChildren : list node) : res bool :=
  some (fun child =>
          cls <-- classLower child ;;
          inr (match Re.exec Pat.cardClass cls with Some _ => true | None => false end))
       innerChildren.

Definition childrenAreSections (innerChildren : list node) : bool :=
  forallb (fun child =>
             existsb (String.eqb (tagName child)) ["SECTION"; "ARTICLE"; "ASIDE"])
          innerChildren.

Definition isCardName (containerClass : string) : bool :=
  Re.test Pat.cardWord containerClass || String.eqb containerClass "card".

(** The decision logic, with the branches of the source. *)
Definition shouldDescend (isWrapperName childrenHaveCardClass childrenAreSections
                          isCardName : bool) : bool :=
  if isWrapperName then true
  else if childrenHaveCardClass || childrenAreSections then
    if negb isCardName then true else false
  else false.

(** Nested structure handling: the targets after the wrapper has been peeled
    off (or not). *)
Definition peel (targets : list node) : res (list node) :=
  match targets with
  | [container] =>
      let innerChildren := getMeaningfulChildren container in
      if (1 <? length innerChildren)%nat then
        containerClass <-- classLower container ;;
        let wn := isWrapperName containerClass in
        chc <-- childrenHaveCardClass innerChildren ;;
        let cas := childrenAreSections innerChildren in
        let cn := isCardName containerClass in
        inr (if shouldDescend wn chc cas cn then innerChildren else targets)
      else inr targets
  | _ => inr targets
  end.

(** The title of a split unit, before truncation:
    [querySelector('h1, h2, h3')?.textContent?.trim() || getAttribute('title')
     || getAttribute('aria-label') || `Card ${childIndex + 1}`]. *)
Definition optText (o : option string) : string :=
  match o with Some v => v | None => EmptyString end.

Definition titleText (child : node) (childIndex : nat) : string :=
  Js.orElse (optText (option_map (fun h => Js.trim (textContent h))
                                 (querySelector child ["h1"; "h2"; "h3"])))
    (Js.orElse (optText (getAttribute child "title"))
       (Js.orElse (optText (getAttribute child "aria-label"))
          ("Card " ++ Js.showNat (childIndex + 1)))).

(** [titleText.length > 30 ? titleText.substring(0, 30) + '...' : titleText] *)
Definition truncateTitle (titleText : string) : string :=
  if (30 <? String.length titleText)%nat then Js.take 30 titleText ++ "..."
  else titleText.

(** The standalone document of a split unit. *)
Definition splitCode (headContent : string) (child : node) : string :=
  "<!DOCTYPE html>" ++ Js.nl ++
  "<html>" ++ Js.nl ++
  "<head>" ++ Js.nl ++
  "  <meta charset=" ++ Js.dq ++ "UTF-8" ++ Js.dq ++ ">" ++ Js.nl ++
  "  " ++ headContent ++ Js.nl ++
  "</head>" ++ Js.nl ++
  "<body style=" ++ Js.dq ++ "margin:0; padding:0; background: transparent;" ++ Js.dq
    ++ ">" ++ Js.nl ++
  "  " ++ outerHTML child ++ Js.nl ++
  "</body>" ++ Js.nl ++
  "</html>".

Definition splitArtifact (now : Z) (headContent : string) (blockIndex : nat)
           (child : node) (childIndex : nat) : Artifact :=
  {| id := "artifact-split-" ++ Js.showZ now ++ "-" ++ Js.showNat blockIndex
             ++ "-" ++ Js.showNat childIndex;
     code := splitCode headContent child;
     title := truncateTitle (titleText child childIndex);
     type := html |}.

Definition blockArtifact (now : Z) (block : string) (blockIndex : nat) : Artifact :=
  let titleMatch := Re.exec Pat.titleTag block in
  {| id := "artifact-block-" ++ Js.showZ now ++ "-" ++ Js.showNat blockIndex;
     code := block;
     title := match titleMatch with
              | Some m => Re.groupText m
              | None => "Artifact " ++ Js.showNat (blockIndex + 1)
              end;
     type := html |}.

Definition errArtifact (now : Z) (block : string) (blockIndex : nat) : Artifact :=
  {| id := "artifact-err-" ++ Js.showZ now ++ "-" ++ Js.showNat blockIndex;
     code := block;
     title := "Artifact " ++ Js.showNat (blockIndex + 1);
     type := html |}.

Section Parser.

(** [new DOMParser().parseFromString(block, 'text/html')]: the document, or
    what the call throws (a [ReferenceError] where there is no [DOMParser]). *)
Variable parseFromString : string -> res document.

Definition push (a : Artifact) : Eff.M (list Artifact) unit :=
  Eff.modify (fun artifacts => artifacts ++ [a])%list.

(** 2. Process each block: the callback of [blocks.forEach]. *)
Definition processBlock (now : Z) (block : string) (blockIndex : nat)
  : Eff.M (list Artifact) unit :=
  Eff.tryCatch
    (doc <- Eff.lift (parseFromString block) ;;
     let headContent := innerHTML (head doc) in
     targets <- Eff.lift (peel (getMeaningfulChildren (body doc))) ;;
     if (1 <? length targets)%nat then
       Eff.forEach
         (fun child childIndex =>
            push (splitArtifact now headContent blockIndex child childIndex))
         targets
     else
       push (blockArtifact now block blockIndex))
    (fun e => push (errArtifact now block blockIndex)).

(** Extract HTML code blocks from Markdown text or raw HTML input. *)
Definition extractArtifacts (now : Z) (text : string) : list Artifact :=
  snd (Eff.forEach (processBlock now) (blocks text) []).

(** Parse an HTML string to separate style and body for safe embedding.
    [querySelectorAll('style')] runs over the whole document: the head, then
    the body. *)
Definition scopedStyles (styles wrapperId : string) : string :=
  Re.replaceAll Pat.bodySelector ("$1 #" ++ wrapperId) styles.

Definition styleElements (doc : document) : list node :=
  (querySelectorAll (head doc) ["style"] ++ querySelectorAll (body doc) ["style"])%list.

Definition parseHtmlForPreview (html wrapperId : string) : res ParsedHtml :=
  doc <-- parseFromString html ;;
  let styles := Js.join Js.nl (map innerHTML (styleElements doc)) in
  let bodyContent := innerHTML (body doc) in
  inr {| styles := scopedStyles styles wrapperId; bodyContent := bodyContent |}.

End Parser.


(* ================================================================== *)
(** * A lenient parser for the examples

    An instance of [parseFromString], used where a statement is evaluated on
    a concrete text.  It follows the HTML parsing algorithm on the markup
    the examples are written in: tags with attributes, text, comments, void
    elements, raw-text elements, implied [html], [head] and [body], elements
    left open at the end of input, and [svg] and [math] subtrees.  Character
    references are left as they are, and the rules for misnested markup
    (implied end tags, foster parenting, formatting elements) are not
    modelled. *)
(* ================================================================== *)

Module Mini.

Inductive token : Type :=
| TStart (name : string) (attrs : list (string * string)) (selfClosing : bool)
| TEnd (name : string)
| TChars (s : string)
| TComment (s : string)
| TDoctype.

(** ASCII white space of the tokenizer. *)
Definition isSpace (a : ascii) : bool :=
  existsb (Nat.eqb (Js.code a)) [9; 10; 12; 13; 32].

Definition lower : string -> string := Js.mapUnits Js.asciiLower.

Fixpoint span (p : ascii -> bool) (s : string) : string * string :=
  match s with
  | String a r =>
      if p a then let (x, y) := span p r in (String a x, y) else (EmptyString, s)
  | EmptyString => (EmptyString, EmptyString)
  end.

(** [needle] (in lower case) starts [s], ASCII case apart. *)
Fixpoint prefixCi (needle s : string) : bool :=
  match needle, s with
  | EmptyString, _ => true
  | String a n, String b r => Ascii.eqb (Js.asciiLower b) a && prefixCi n r
  | _, _ => false
  end.

(** The text before the first occurrence of [needle], and the text from it on. *)
Fixpoint breakAt (needle s : string) : string * string :=
  if prefixCi needle s then (EmptyString, s)
  else match s with
       | String a r => let (x, y) := breakAt needle r in (String a x, y)
       | EmptyString => (EmptyString, EmptyString)
       end.

Definition drop (n : nat) (s : string) : string :=
  substring n (String.length s - n) s.

Definition notIn (l : list ascii) (a : ascii) : bool := negb (existsb (Ascii.eqb a) l).

Definition nameUnit (a : ascii) : bool := negb (isSpace a) && notIn ["/"; ">"]%char a.
Definition attrNameUnit (a : ascii) : bool := nameUnit a && notIn ["="]%char a.

(** The first attribute of a name wins. *)
Definition addAttr (k v : string) (acc : list (string * string)) : list (string * string) :=
  if existsb (fun kv => String.eqb (fst kv) k) acc then acc else (k, v) :: acc.

Fixpoint attributes (fuel : nat) (s : string) (acc : list (string * string))
  : list (string * string) * bool * string :=
  match fuel with
  | O => (List.rev acc, false, EmptyString)
  | S f =>
      match s with
      | EmptyString => (List.rev acc, false, EmptyString)
      | String ">" r => (List.rev acc, false, r)
      | String "/" (String ">" r) => (List.rev acc, true, r)
      | String a r =>
          if isSpace a || Ascii.eqb a "/" then attributes f r acc
          else
            let (nm, r1) := span attrNameUnit r in
            let name := lower (String a nm) in
            let r2 := snd (span isSpace r1) in
            match r2 with
            | String "=" r3 =>
                match snd (span isSpace r3) with
                | String q r5 as r4 =>
                    if Ascii.eqb q "034" || Ascii.eqb q "'" then
                      let (v, r6) := span (fun c => negb (Ascii.eqb c q)) r5 in
                      attributes f (drop 1 r6) (addAttr name v acc)
                    else
                      let (v, r6) := span (fun c => negb (isSpace c) && notIn [">"]%char c) r4 in
                      attributes f r6 (addAttr name v acc)
                | EmptyString => (List.rev (addAttr name EmptyString acc), false, EmptyString)
                end
            | _ => attributes f r2 (addAttr name EmptyString acc)
            end
      end
  end.

(** Elements whose content the tokenizer reads as text up to their end tag. *)
Definition textOnly : list string :=
  ["style"; "script"; "title"; "textarea"; "xmp"; "iframe"; "noembed"; "noframes"].

Fixpoint tokenize (fuel : nat) (s : string) : list token :=
  match fuel with
  | O => []
  | S f =>
      match s with
      | EmptyString => []
      | String "<" r =>
          if prefix "!--" r then
            let (c, r1) := breakAt "-->" (drop 3 r) in
            TComment c :: tokenize f (drop 3 r1)
          else if prefix "!" r then
            let (c, r1) := span (notIn [">"]%char) r in
            (if prefixCi "!doctype" c then TDoctype else TComment (drop 1 c))
              :: tokenize f (drop 1 r1)
          else if prefix "/>" r then tokenize f (drop 2 r)
          else if prefix "/" r then
            match drop 1 r with
            | String a _ as r0 =>
                if Re.letterCi a then
                  let (name, r1) := span nameUnit r0 in
                  let r2 := snd (span (notIn [">"]%char) r1) in
                  TEnd (lower name) :: tokenize f (drop 1 r2)
                else
                  let (c, r1) := span (notIn [">"]%char) r0 in
                  TComment c :: tokenize f (drop 1 r1)
            | EmptyString => [TChars "</"]
            end
          else
            match r with
            | String a _ =>
                if Re.letterCi a then
                  let (nm, r1) := span nameUnit r in
                  let '(attrs, sc, r2) := attributes (S (String.length r1)) r1 [] in
                  let name := lower nm in
                  if existsb (String.eqb name) textOnly then
                    let (txt, r3) := breakAt ("</" ++ name) r2 in
                    TStart name attrs sc
                      :: match txt with
                         | EmptyString => tokenize f r3
                         | _ => TChars txt :: tokenize f r3
                         end
                  else TStart name attrs sc :: tokenize f r2
                else TChars "<" :: tokenize f r
            | EmptyString => [TChars "<"]
            end
      | _ =>
          let (txt, r) := span (notIn ["<"]%char) s in
          TChars txt :: tokenize f r
      end
  end.

(** ** Tree construction *)

Record frame : Type := Frame {
  f_ns : namespace;
  f_name : string;
  f_attrs : list (string * string);
  f_kids : list node                       (* last child first *)
}.

Inductive mode : Type := BeforeHead | InHead | AfterHead | InBody.

Record builder : Type := Builder {
  b_mode : mode;
  b_head : list node;                      (* last child first *)
  b_open : list frame;                     (* innermost open element first *)
  b_body : list node                       (* last child first *)
}.

Definition setMode (m : mode) (b : builder) : builder :=
  Builder m (b_head b) (b_open b) (b_body b).

Definition addKid (n : node) (ks : list node) : list node :=
  match n, ks with
  | Text d, Text d0 :: r => Text (d0 ++ d) :: r
  | _, _ => n :: ks
  end.

(** Insert a node at the current place: the innermost open element, else the
    body once the body has started, else the head. *)
Definition insert (n : node) (b : builder) : builder :=
  match b_open b with
  | f :: fs =>
      Builder (b_mode b) (b_head b)
              (Frame (f_ns f) (f_name f) (f_attrs f) (addKid n (f_kids f)) :: fs)
              (b_body b)
  | [] =>
      match b_mode b with
      | InBody => Builder InBody (b_head b) [] (addKid n (b_body b))
      | m => Builder m (addKid n (b_head b)) [] (b_body b)
      end
  end.

Definition insertText (s : string) (b : builder) : builder :=
  match s with EmptyString => b | _ => insert (Text s) b end.

Definition closeTop (b : builder) : builder :=
  match b_open b with
  | f :: fs =>
      insert (Element (f_ns f) (f_name f) (f_attrs f) (List.rev (f_kids f)))
             (Builder (b_mode b) (b_head b) fs (b_body b))
  | [] => b
  end.

Fixpoint closeThrough (name : string) (open : list frame) (b : builder) : builder :=
  match open with
  | [] => b
  | f :: fs =>
      if String.eqb (f_name f) name then closeTop b
      else closeThrough name fs (closeTop b)
  end.

Fixpoint closeAll (open : list frame) (b : builder) : builder :=
  match open with
  | [] => b
  | _ :: fs => closeAll fs (closeTop b)
  end.

Definition namespaceFor (name : string) (b : builder) : namespace :=
  let byName := if String.eqb name "svg" then SVG
                else if String.eqb name "math" then MathML else HTML in
  match b_open b with
  | f :: _ => if isHtml (f_ns f) then byName else f_ns f
  | [] => byName
  end.

Definition openElement (name : string) (attrs : list (string * string))
           (selfClosing : bool) (b : builder) : builder :=
  let ns := namespaceFor name b in
  if (isHtml ns && existsb (String.eqb name) voidNames) || (negb (isHtml ns) && selfClosing)
  then insert (Element ns name attrs []) b
  else Builder (b_mode b) (b_head b) (Frame ns name attrs [] :: b_open b) (b_body b).

Definition structural : list string := ["html"; "head"; "body"].
Definition inHeadNames : list string :=
  ["base"; "basefont"; "bgsound"; "link"; "meta"; "title"; "noscript"; "noframes";
   "style"; "script"; "template"].
Definition afterHeadNames : list string :=
  ["base"; "basefont"; "bgsound"; "link"; "meta"; "title"; "noframes";
   "style"; "script"; "template"].

(** Inside an open element, and in the body. *)
Definition stepNested (t : token) (b : builder) : builder :=
  match t with
  | TChars s => insertText s b
  | TComment c => insert (Comment c) b
  | TDoctype => b
  | TStart name attrs sc =>
      if existsb (String.eqb name) structural && isHtml (namespaceFor name b) then b
      else openElement name attrs sc b
  | TEnd name =>
      if existsb (fun f => String.eqb (f_name f) name) (b_open b)
      then closeThrough name (b_open b) b else b
  end.

Definition stepHead (names : list string) (t : token) (b : builder) : builder :=
  match t with
  | TChars s =>
      let (ws, rest) := span isSpace s in
      let b1 := match b_mode b with InHead => insertText ws b | _ => b end in
      match rest with
      | EmptyString => b1
      | _ => insertText rest (setMode InBody b1)
      end
  | TComment c => match b_mode b with InHead => insert (Comment c) b | _ => b end
  | TDoctype => b
  | TStart name attrs sc =>
      if String.eqb name "html" then b
      else if String.eqb name "head" then
        match b_mode b with BeforeHead => setMode InHead b | _ => b end
      else if String.eqb name "body" then setMode InBody b
      else if existsb (String.eqb name) names then
        openElement name attrs sc
          (match b_mode b with BeforeHead => setMode InHead b | _ => b end)
      else openElement name attrs sc (setMode InBody b)
  | TEnd name =>
      if String.eqb name "head" then
        match b_mode b with AfterHead => b | _ => setMode AfterHead b end
      else b
  end.

Definition step (b : builder) (t : token) : builder :=
  match b_open b, b_mode b with
  | _ :: _, _ => stepNested t b
  | [], InBody => stepNested t b
  | [], AfterHead => stepHead afterHeadNames t b
  | [], _ => stepHead inHeadNames t b
  end.

Definition build (ts : list token) : document :=
  let b := fold_left step ts (Builder BeforeHead [] [] []) in
  let b' := closeAll (b_open b) b in
  Document (Element HTML "head" [] (List.rev (b_head b')))
           (Element HTML "body" [] (List.rev (b_body b'))).

Definition parseFromString (s : string) : res document :=
  inr (build (tokenize (S (String.length s)) s)).

End Mini.

(* ================================================================== *)
(** * Definitions the statements are written with *)
(* ================================================================== *)

(** [l.map((x, i) => f x i)], counting from [i]. *)
Fixpoint mapFrom {A B} (f : A -> nat -> B) (i : nat) (l : list A) : list B :=
  match l with
  | [] => []
  | x :: r => f x i :: mapFrom f (S i) r
  end.

Section BlockOutput.

Variable parseFromString : string -> res document.

(** The outcome of the [try] body up to the artifact generation: the head
    markup and the targets, or the error thrown. *)
Definition analyse (block : string) : res (string * list node) :=
  doc <-- parseFromString block ;;
  targets <-- peel (getMeaningfulChildren (body doc)) ;;
  inr (innerHTML (head doc), targets).

(** The artifacts one block appends. *)
Definition blockOutput (now : Z) (block : string) (blockIndex : nat) : list Artifact :=
  match analyse block with
  | inl _ => [errArtifact now block blockIndex]
  | inr (headContent, targets) =>
      if (1 <? length targets)%nat
      then mapFrom (splitArtifact now headContent blockIndex) 0 targets
      else [blockArtifact now block blockIndex]
  end.

(** Does the block enter the split branch? *)
Definition splits (block : string) : bool :=
  match analyse block with
  | inr (_, targets) => (1 <? length targets)%nat
  | inl _ => false
  end.

(** The artifacts of the blocks [l], the first of which has index [i],
    appended to an empty array. *)
Definition runBlocks (now : Z) (i : nat) (l : list string) : list Artifact :=
  snd (Eff.forEachFrom (processBlock parseFromString now) i l []).

End BlockOutput.

(** ** The title of a split unit, in the words of the specification *)

(** The first candidate that is present and not empty, else the fallback. *)
Fixpoint firstNonEmpty (candidates : list (option string)) (fallback : string) : string :=
  match candidates with
  | [] => fallback
  | Some (String a r) :: _ => String a r
  | _ :: more => firstNonEmpty more fallback
  end.

Definition resolvedTitle (child : node) (index : nat) : string :=
  firstNonEmpty
    [option_map (fun h => Js.trim (textContent h)) (querySelector child ["h1"; "h2"; "h3"]);
     getAttribute child "title";
     getAttribute child "aria-label"]
    ("Card " ++ Js.showNat (index + 1)).

(** The three fixed parts of the standalone document of a split unit. *)
Definition docPrefix : string :=
  "<!DOCTYPE html>" ++ Js.nl ++ "<html>" ++ Js.nl ++ "<head>" ++ Js.nl ++
  "  <meta charset=" ++ Js.dq ++ "UTF-8" ++ Js.dq ++ ">" ++ Js.nl ++ "  ".
Definition docMiddle : string :=
  Js.nl ++ "</head>" ++ Js.nl ++
  "<body style=" ++ Js.dq ++ "margin:0; padding:0; background: transparent;" ++ Js.dq
  ++ ">" ++ Js.nl ++ "  ".
Definition docSuffix : string :=
  Js.nl ++ "</body>" ++ Js.nl ++ "</html>".

(** ** The selector rewrite, read from left to right *)

Module Scope.

(** The longest run of white space a text starts with, and what follows. *)
Fixpoint whiteRun (s : string) : string * string :=
  match s with
  | String a r =>
      if Js.isWhite a then let (x, y) := whiteRun r in (String a x, y)
      else (EmptyString, s)
  | EmptyString => (EmptyString, EmptyString)
  end.

(** The text starts with white space (possibly none) followed by [body]:
    the number of code units up to the end of [body]. *)
Definition bodyAhead (s : string) : option nat :=
  let (ws, r) := whiteRun s in
  if prefix "body" r then Some (String.length ws + 4) else None.

Definition isAnchor (a : ascii) : bool := Ascii.eqb a "}" || Ascii.eqb a ",".

(** Copy the text; at the start of the text, and after each closing brace or
    comma, replace white space followed by [body] with a space and [#id].
    [skip] counts the code units of the replaced text still to be passed. *)
Fixpoint rewrite (wrapperId : string) (atStart : bool) (s : string) (skip : nat) : string :=
  match skip with
  | S n =>
      match s with
      | String _ r => rewrite wrapperId false r n
      | EmptyString => EmptyString
      end
  | O =>
      match s with
      | EmptyString => EmptyString
      | String a r =>
          match (if atStart then bodyAhead s else None) with
          | Some n => " #" ++ wrapperId ++ rewrite wrapperId false r (n - 1)
          | None =>
              match (if isAnchor a then bodyAhead r else None) with
              | Some n => String a (" #" ++ wrapperId ++ rewrite wrapperId false r n)
              | None => String a (rewrite wrapperId false r 0)
              end
          end
      end
  end.

Definition scoped (styles wrapperId : string) : string := rewrite wrapperId true styles 0.

(** The part of the pattern after the anchor: white space, then [body]. *)
Definition wsBody : Re.regex := Re.Seq (Re.Star true Js.isWhite) (Re.lit false "body").

(** What follows [body] in a text that starts with [body]. *)
Definition afterBody (s : string) : string := substring 4 (String.length s - 4) s.

(** The wrapper identifier has no dollar sign. *)
Definition plainId (wrapperId : string) : bool :=
  Js.allUnits (fun a => negb (Ascii.eqb a "$")) wrapperId.

End Scope.

(** ** Identifiers *)

(** What an identifier is made from: the generation path and the indices. *)
Inductive key : Type :=
| KSplit (blockIndex childIndex : nat)
| KBlock (blockIndex : nat)
| KErr (blockIndex : nat).

Definition render (now : Z) (k : key) : string :=
  match k with
  | KSplit i c =>
      "artifact-split-" ++ Js.showZ now ++ "-" ++ Js.showNat i ++ "-" ++ Js.showNat c
  | KBlock i => "artifact-block-" ++ Js.showZ now ++ "-" ++ Js.showNat i
  | KErr i => "artifact-err-" ++ Js.showZ now ++ "-" ++ Js.showNat i
  end.

Definition keyBlock (k : key) : nat :=
  match k with KSplit i _ => i | KBlock i => i | KErr i => i end.

Definition keysOf (parseFromString : string -> res document) (block : string) (i : nat)
  : list key :=
  match analyse parseFromString block with
  | inl _ => [KErr i]
  | inr (_, targets) =>
      if (1 <? length targets)%nat
      then mapFrom (fun (_ : node) c => KSplit i c) 0 targets
      else [KBlock i]
  end.

(** ** Texts the statements are evaluated on *)

Module Sample.

Definition q : string := Js.dq.

(** A wrapper around two cards. *)
Definition cardWrapper : string :=
  "<div class=" ++ q ++ "card-wrapper" ++ q ++ ">" ++
  "<div class=" ++ q ++ "card" ++ q ++ "><h2>First</h2>A</div>" ++
  "<div class=" ++ q ++ "card" ++ q ++ " title=" ++ q ++ "Second" ++ q ++ ">B</div>" ++
  "</div>".

(** One card with its own parts. *)
Definition singleCard : string :=
  "<div class=" ++ q ++ "card" ++ q ++ ">" ++
  "<div class=" ++ q ++ "card-header" ++ q ++ ">X</div>" ++
  "<div class=" ++ q ++ "card-body" ++ q ++ ">Y</div>" ++
  "</div>".

(** A document whose title has 41 code units. *)
Definition longTitle : string := "An unusually long document title here, 42".
Definition longTitleDocument : string :=
  "<html><head><title>" ++ longTitle ++ "</title></head><body><p>x</p></body></html>".

(** A document with an empty title. *)
Definition emptyTitleDocument : string :=
  "<html><head><title></title></head><body><p>x</p></body></html>".

(** Markdown with two fenced blocks, neither of which is split. *)
Definition twoFences : string :=
  "First:" ++ Js.nl ++ "```html" ++ Js.nl ++ "<p>one</p>" ++ Js.nl ++ "```" ++ Js.nl ++
  "Second:" ++ Js.nl ++ "```HTML" ++ Js.nl ++ "<div><p>two</p></div>" ++ Js.nl ++ "```".

(** Markdown with three fenced blocks; the second is an [svg] with two
    shapes, whose [className] is an object. *)
Definition svgBlock : string := "<svg class='icons'><rect/><circle/></svg>".
Definition fencesWithSvg : string :=
  "```html" ++ Js.nl ++ cardWrapper ++ Js.nl ++ "```" ++ Js.nl ++
  "```html" ++ Js.nl ++ svgBlock ++ Js.nl ++ "```" ++ Js.nl ++
  "```html" ++ Js.nl ++ "<p>last</p>" ++ Js.nl ++ "```".

(** Markup whose tag names are in upper case only. *)
Definition upperCaseDiv : string :=
  "<DIV class=" ++ q ++ "x" ++ q ++ ">hello</DIV>".

(** Text without markup. *)
Definition plainText : string := "Nothing to render here: 3 > 2.".

(** A style sheet inside a document. *)
Definition styledDocument : string :=
  "<style>body{color:red} .x{}</style><div class=" ++ q ++ "x" ++ q ++ ">hi</div>".

(** The trees of some of these texts. *)
Definition firstCard : node :=
  Element HTML "div" [("class", "card")] [Element HTML "h2" [] [Text "First"]; Text "A"].
Definition secondCard : node :=
  Element HTML "div" [("class", "card"); ("title", "Second")] [Text "B"].
Definition cardWrapperElement : node :=
  Element HTML "div" [("class", "card-wrapper")] [firstCard; secondCard].
Definition cardWrapperDocument : document :=
  Document (Element HTML "head" [] []) (Element HTML "body" [] [cardWrapperElement]).

Definition svgDocument : document :=
  Document (Element HTML "head" [] [])
           (Element HTML "body" []
              [Element SVG "svg" [("class", "icons")]
                 [Element SVG "rect" [] []; Element SVG "circle" [] []]]).



Definition styledTree : document :=
  Document (Element HTML "head" [] [Element HTML "style" [] [Text "body{color:red} .x{}"]])
           (Element HTML "body" [] [Element HTML "div" [("class", "x")] [Text "hi"]]).

End Sample.

(* ================================================================== *)
(** * The callers: [App.tsx], [PreviewCard.tsx] and [InputSection.tsx]

    The parts of the components that compute with strings and artifacts:
    file names, the document written to a file, the identifier of the preview
    container, the outcome of processing an input, and the text assembled
    from uploaded files.  A download is modelled by its file name and its
    content; rendering, timers and the network are left out. *)
(* ================================================================== *)

(** [s.padStart(maxLength, fillString)]. *)
Fixpoint filler (fillString cur : string) (n : nat) : string :=
  match n with
  | O => EmptyString
  | S m =>
      match cur with
      | String a r => String a (filler fillString r m)
      | EmptyString =>
          match fillString with
          | String a r => String a (filler fillString r m)
          | EmptyString => EmptyString
          end
      end
  end.

Definition padStart (maxLength : nat) (fillString s : string) : string :=
  if (maxLength <=? String.length s)%nat then s
  else if Js.isEmpty fillString then s
  else filler fillString fillString (maxLength - String.length s) ++ s.

(** What the two components share word for word. *)
Module Files.
Import Re.

(** The class of the pattern in [title.replace(..., '_')]: backslash, slash,
    colon, asterisk, question mark, double quote, the two angle brackets and
    the bar. *)
Definition unsafeUnits : list ascii :=
  ["\"; "/"; ":"; "*"; "?"; "034"; "<"; ">"; "|"]%char.
Definition isUnsafe (a : ascii) : bool := existsb (Ascii.eqb a) unsafeUnits.
Definition unsafeUnit : regex := Chr isUnsafe.

(** [title.replace(unsafe, '_').trim() || fallback], under the flag [g]. *)
Definition safeTitle (fallback title : string) : string :=
  Js.orElse (Js.trim (replaceAll unsafeUnit "_" title)) fallback.

(** [useNumbering ? `${String(index + 1).padStart(2, '0')}_` : ''] *)
Definition prefix (useNumbering : bool) (index : nat) : string :=
  if useNumbering then padStart 2 "0" (Js.showNat (index + 1)) ++ "_" else EmptyString.

(** [/^\s*<!DOCTYPE/i] and [/^\s*<html/i] *)
Definition doctypeStart : regex :=
  Seq Bol (Seq (Star true Js.isWhite) (lit true "<!DOCTYPE")).
Definition htmlStart : regex :=
  Seq Bol (Seq (Star true Js.isWhite) (lit true "<html")).

(** [code.match(/^\s*<!DOCTYPE/i) || code.match(/^\s*<html/i)] *)
Definition isDocument (code : string) : bool :=
  test doctypeStart code || test htmlStart code.

(** The head of the wrapper both components write around a fragment. *)
Definition wrapperHead (title : string) : string :=
  "<!DOCTYPE html>" ++ Js.nl ++ "<html lang=" ++ Js.dq ++ "ko" ++ Js.dq ++ ">" ++ Js.nl ++
  "<head>" ++ Js.nl ++ "<meta charset=" ++ Js.dq ++ "UTF-8" ++ Js.dq ++ ">" ++ Js.nl ++
  "<title>" ++ title ++ "</title>" ++ Js.nl ++ "</head>" ++ Js.nl.

End Files.

Module PreviewCard.

(** [`preview-${artifact.id}`] *)
Definition wrapperId (artifact : Artifact) : string := "preview-" ++ id artifact.

(** The preview of the card: [parseHtmlForPreview(artifact.code, wrapperId)]. *)
Definition parsed (parseFromString : string -> res document) (artifact : Artifact)
  : res ParsedHtml :=
  parseHtmlForPreview parseFromString (code artifact) (wrapperId artifact).

Definition getFullHtml (artifact : Artifact) : string :=
  let trimmed := Js.trim (code artifact) in
  if Files.isDocument trimmed then trimmed
  else
    Files.wrapperHead (title artifact) ++
    "<body style=" ++ Js.dq ++ "margin:0;padding:0;background:#fff;" ++ Js.dq ++ ">"
    ++ Js.nl ++ code artifact ++ Js.nl ++ "</body>" ++ Js.nl ++ "</html>".

(** [handleHtmlDownload]: the name and the content of the file. *)
Definition handleHtmlDownload (useNumbering : bool) (index : nat) (artifact : Artifact)
  : string * string :=
  (Files.prefix useNumbering index ++ Files.safeTitle "design" (title artifact) ++ ".html",
   getFullHtml artifact).

(** The name [generateImage] and [handleManualDownloadClick] give the image. *)
Definition imageName (useNumbering : bool) (index : nat) (artifact : Artifact) : string :=
  Files.prefix useNumbering index ++ Files.safeTitle "image" (title artifact) ++ ".jpg".

End PreviewCard.

Module App.

Inductive Status : Type := idle | analyzing | generating | rendering | complete | error.

(** [ProcessingState] of [types.ts]. *)
Record ProcessingState : Type := mkProcessingState {
  status : Status;
  message : option string
}.

(** The part of the component state [processInput] writes. *)
Record State : Type := mkState {
  artifacts : list Artifact;
  procState : ProcessingState
}.

(** [processInput], once its promise has settled. *)
Definition processInput (parseFromString : string -> res document) (now : Z)
           (inputText : string) (st : State) : State :=
  let st1 := {| artifacts := []; procState := {| status := analyzing; message := None |} |} in
  let extracted := extractArtifacts parseFromString now inputText in
  if (length extracted =? 0)%nat then
    {| artifacts := artifacts st1;
       procState := {| status := error;
                       message := Some "No valid HTML/CSS content found in the input." |} |}
  else
    {| artifacts := extracted; procState := {| status := complete; message := None |} |}.

(** The document [handleDownloadAllHtml] writes for one artifact. *)
Definition fullHtml (artifact : Artifact) : string :=
  let trimmed := Js.trim (code artifact) in
  if negb (Re.test Files.doctypeStart trimmed) && negb (Re.test Files.htmlStart trimmed) then
    Files.wrapperHead (title artifact) ++
    "<body style=" ++ Js.dq ++ "margin:0;padding:0;" ++ Js.dq ++ ">"
    ++ Js.nl ++ trimmed ++ Js.nl ++ "</body>" ++ Js.nl ++ "</html>"
  else trimmed.

(** [handleDownloadAllHtml]: the files, in the order they are offered. *)
Definition handleDownloadAllHtml (useNumbering : bool) (artifacts : list Artifact)
  : list (string * string) :=
  if (length artifacts =? 0)%nat then []
  else
    mapFrom (fun artifact i =>
               (Files.prefix useNumbering i
                  ++ Files.safeTitle "design" (title artifact) ++ ".html",
                fullHtml artifact))
            0 artifacts.

End App.

Module InputSection.
Import Re.

(** What the component reads of a [File]: its name, its MIME type, and the
    text [FileReader] gives ([|| ''] when there is none). *)
Record File : Type := mkFile {
  name : string;
  type : string;
  content : string
}.

(** A match of [r] that ends at the end of the subject: the pattern [r$]. *)
Definition matchToEnd (r : regex) (bef s : string) : bool :=
  match run r bef s None
            (fun bef' s' g => if Js.isEmpty s' then Some (Outcome bef' s' g) else None)
  with Some _ => true | None => false end.

Fixpoint testToEndFrom (r : regex) (bef s : string) : bool :=
  matchToEnd r bef s ||
  match s with
  | String a s' => testToEndFrom r (String a bef) s'
  | EmptyString => false
  end.

Definition testToEnd (r : regex) (s : string) : bool := testToEndFrom r EmptyString s.

Fixpoint oneOfCi (w : string) (more : list string) : regex :=
  match more with
  | [] => lit true w
  | w' :: r => Alt (lit true w) (oneOfCi w' r)
  end.

(** [/\.(tsx|ts|md|txt|js|css|htm|html)$/i], without the final [$] *)
Definition acceptedExtension : regex :=
  Seq (lit true ".") (oneOfCi "tsx" ["ts"; "md"; "txt"; "js"; "css"; "htm"; "html"]).

(** [/\.(html|htm)$/i], without the final [$] *)
Definition htmlExtension : regex :=
  Seq (lit true ".") (oneOfCi "html" ["htm"]).

(** [/^<[a-z!]/i] *)
Definition markupStart : regex :=
  Seq Bol (Seq (lit true "<") (Chr (fun a => letterCi a || Ascii.eqb a "!"))).

Definition validFiles (files : list File) : list File :=
  filter (fun f =>
            String.eqb (type f) "text/plain" ||
            String.eqb (type f) "text/html" ||
            testToEnd acceptedExtension (name f))
         files.

Definition isHtmlFile (f : File) : bool :=
  testToEnd htmlExtension (name f) || test markupStart (Js.trim (content f)).

(** The text one file contributes. *)
Definition fenced (f : File) : string :=
  "```html" ++ Js.nl ++ "<!-- Source: " ++ name f ++ " -->" ++ Js.nl
  ++ content f ++ Js.nl ++ "```".

Definition combinedText (files : list File) : string :=
  Js.join (Js.nl ++ Js.nl)
          (map (fun f => if isHtmlFile f then fenced f else content f)
               (validFiles files)).

(** [processFiles]: what it hands to [onProcess], if anything, given the
    text processed last. *)
Definition processFiles (files : list File) (lastProcessedText : string) : option string :=
  match validFiles files with
  | [] => None
  | _ =>
      let combined := combinedText files in
      if String.eqb (Js.trim combined) lastProcessedText then None else Some combined
  end.

End InputSection.

(* ================================================================== *)
(** * Vocabulary of the further properties *)
(* ================================================================== *)

(** The text is empty or starts with a unit that is not white space. *)
Definition headNotWhite (s : string) : Prop :=
  match s with String a _ => Js.isWhite a = false | EmptyString => True end.

(** The number a decimal text stands for, leading zeros allowed. *)
Definition readNat (s : string) : option nat :=
  option_map Nat.of_uint (NilEmpty.uint_of_string s).

(** The two texts agree up to the case of ASCII letters. *)
Fixpoint sameCi (w w' : string) : bool :=
  match w, w' with
  | EmptyString, EmptyString => true
  | String a r, String b r' => Re.isCi a b && sameCi r r'
  | _, _ => false
  end.

(** What the replacement in [safeTitle] does to one code unit. *)
Definition sanitize (a : ascii) : ascii := if Files.isUnsafe a then "_"%char else a.



(* ================================================================== *)
(** * Lists and strings *)
(* ================================================================== *)

(** A closed statement settled by evaluation. *)
Ltac evaluate := vm_compute; reflexivity.

Lemma append_assoc (a b c : string) : (a ++ b) ++ c = a ++ (b ++ c).
Proof. induction a; simpl; congruence. Qed.

Lemma append_nil_r (s : string) : s ++ EmptyString = s.
Proof. induction s; simpl; congruence. Qed.

Lemma append_length (a b : string) :
  String.length (a ++ b) = (String.length a + String.length b)%nat.
Proof. induction a; simpl; congruence. Qed.

Lemma append_inv_head (p a b : string) : p ++ a = p ++ b -> a = b.
Proof. induction p; simpl; intros H; [assumption|]. inversion H. auto. Qed.

Lemma mapFrom_length {A B} (f : A -> nat -> B) l : forall i,
  length (mapFrom f i l) = length l.
Proof. induction l; intros; simpl; auto. Qed.

Lemma mapFrom_nth_error {A B} (f : A -> nat -> B) l : forall i k,
  nth_error (mapFrom f i l) k = option_map (fun x => f x (i + k)) (nth_error l k).
Proof.
  induction l as [|x r IH]; intros i k.
  - destruct k; reflexivity.
  - destruct k; simpl.
    + now rewrite Nat.add_0_r.
    + rewrite IH. now rewrite Nat.add_succ_r.
Qed.

Lemma mapFrom_map {A B C} (g : B -> C) (f : A -> nat -> B) l : forall i,
  map g (mapFrom f i l) = mapFrom (fun x k => g (f x k)) i l.
Proof. induction l; intros; simpl; f_equal; auto. Qed.

Lemma mapFrom_ext {A B} (f g : A -> nat -> B) l : forall i,
  (forall x k, f x k = g x k) -> mapFrom f i l = mapFrom g i l.
Proof. induction l; intros; simpl; f_equal; auto. Qed.

Lemma mapFrom_app {A B} (f : A -> nat -> B) l1 l2 : forall i,
  mapFrom f i (l1 ++ l2)%list = (mapFrom f i l1 ++ mapFrom f (i + length l1) l2)%list.
Proof.
  induction l1 as [|x r IH]; intros i; simpl.
  - now rewrite Nat.add_0_r.
  - rewrite IH. now rewrite Nat.add_succ_r.
Qed.

(* ================================================================== *)
(** * What one block contributes

    The callback of [blocks.forEach] only ever appends to [artifacts]; the
    list it appends is [blockOutput]. *)
(* ================================================================== *)

Section BlockLemmas.

Variable parseFromString : string -> res document.

Lemma forEach_push (f : node -> nat -> Artifact) l : forall i st,
  Eff.forEachFrom (fun child childIndex => push (f child childIndex)) i l st
  = (inr tt, (st ++ mapFrom f i l)%list).
Proof.
  induction l as [|x r IH]; intros i st; simpl.
  - unfold Eff.ret. now rewrite app_nil_r.
  - unfold Eff.bind, push, Eff.modify. rewrite IH.
    now rewrite <- app_assoc.
Qed.

Lemma processBlock_spec now block i st :
  processBlock parseFromString now block i st
  = (inr tt, (st ++ blockOutput parseFromString now block i)%list).
Proof.
  unfold processBlock, blockOutput, analyse, Eff.tryCatch, Eff.bind, Eff.lift.
  destruct (parseFromString block) as [e|doc]; simpl; [reflexivity|].
  destruct (peel (getMeaningfulChildren (body doc))) as [e|targets]; simpl;
    [reflexivity|].
  destruct (1 <? length targets)%nat.
  - unfold Eff.forEach. now rewrite forEach_push.
  - reflexivity.
Qed.

Lemma forEach_blocks now l : forall i st,
  Eff.forEachFrom (processBlock parseFromString now) i l st
  = (inr tt, (st ++ concat (mapFrom (blockOutput parseFromString now) i l))%list).
Proof.
  induction l as [|b r IH]; intros i st; simpl.
  - unfold Eff.ret. now rewrite app_nil_r.
  - unfold Eff.bind. rewrite processBlock_spec, IH.
    now rewrite <- app_assoc.
Qed.

Lemma runBlocks_spec now i l :
  runBlocks parseFromString now i l
  = concat (mapFrom (blockOutput parseFromString now) i l).
Proof. unfold runBlocks. now rewrite forEach_blocks. Qed.

Lemma extractArtifacts_spec now text :
  extractArtifacts parseFromString now text
  = concat (mapFrom (blockOutput parseFromString now) 0 (blocks text)).
Proof. unfold extractArtifacts, Eff.forEach. now rewrite forEach_blocks. Qed.

Lemma extractArtifacts_runBlocks now text :
  extractArtifacts parseFromString now text = runBlocks parseFromString now 0 (blocks text).
Proof. reflexivity. Qed.

End BlockLemmas.

(* ================================================================== *)
(** * Identifiers are told apart by their keys *)
(* ================================================================== *)

Lemma digits_of_uint (d : Decimal.uint) :
  Js.allUnits Js.isDigit (NilEmpty.string_of_uint d) = true.
Proof. induction d; simpl; auto. Qed.

Lemma showNat_digits (n : nat) : Js.allUnits Js.isDigit (Js.showNat n) = true.
Proof. apply digits_of_uint. Qed.

Lemma showNat_inj (n m : nat) : Js.showNat n = Js.showNat m -> n = m.
Proof.
  unfold Js.showNat. intros H.
  assert (Hu : Nat.to_uint n = Nat.to_uint m).
  { pose proof (NilEmpty.usu (Nat.to_uint n)) as H1.
    pose proof (NilEmpty.usu (Nat.to_uint m)) as H2.
    rewrite H in H1. congruence. }
  rewrite <- (DecimalNat.Unsigned.of_to n), <- (DecimalNat.Unsigned.of_to m).
  now rewrite Hu.
Qed.

(** Two texts cut at the first unit outside a class agree part by part. *)
Lemma cut_at_separator (p : ascii -> bool) (c : ascii) (u u' v v' : string) :
  p c = false ->
  Js.allUnits p u = true -> Js.allUnits p u' = true ->
  u ++ String c v = u' ++ String c v' -> u = u' /\ v = v'.
Proof.
  intros Hc. revert u'.
  induction u as [|a u IH]; intros [|a' u'] Hu Hu' H; simpl in *.
  - inversion H. auto.
  - inversion H; subst. apply andb_prop in Hu'. destruct Hu'. congruence.
  - inversion H; subst. apply andb_prop in Hu. destruct Hu. congruence.
  - inversion H; subst.
    apply andb_prop in Hu. apply andb_prop in Hu'.
    destruct (IH u') as [-> ->]; tauto.
Qed.

Lemma render_inj (now : Z) (k1 k2 : key) : render now k1 = render now k2 -> k1 = k2.
Proof.
  destruct k1 as [i c|i|i], k2 as [i' c'|i'|i']; unfold render; intros H;
    try (simpl in H; discriminate H).
  - do 3 apply append_inv_head in H.
    apply (cut_at_separator Js.isDigit) in H;
      [|reflexivity|apply showNat_digits|apply showNat_digits].
    destruct H as [Hi Hc]. apply showNat_inj in Hi, Hc. congruence.
  - do 3 apply append_inv_head in H. apply showNat_inj in H. congruence.
  - do 3 apply append_inv_head in H. apply showNat_inj in H. congruence.
Qed.

Lemma NoDup_map_injective {A B} (f : A -> B) (l : list A) :
  (forall x y, f x = f y -> x = y) -> NoDup l -> NoDup (map f l).
Proof.
  intros Hinj Hnd. induction Hnd as [|x l Hx Hnd IH]; simpl; constructor; auto.
  intros Hin. apply in_map_iff in Hin. destruct Hin as [y [Hy Hyl]].
  apply Hinj in Hy. now subst.
Qed.

Lemma split_keys_from (i : nat) (l : list node) : forall j k,
  In k (mapFrom (fun (_ : node) c => KSplit i c) j l) ->
  exists c, k = KSplit i c /\ (j <= c)%nat.
Proof.
  induction l as [|x r IH]; intros j k; simpl; [tauto|].
  intros [<-|H].
  - exists j. auto.
  - apply IH in H. destruct H as [c [-> Hc]]. exists c. split; [reflexivity|lia].
Qed.

Lemma split_keys_NoDup (i : nat) (l : list node) : forall j,
  NoDup (mapFrom (fun (_ : node) c => KSplit i c) j l).
Proof.
  induction l as [|x r IH]; intros j; simpl; constructor; auto.
  intros H. apply split_keys_from in H. destruct H as [c [Hk Hc]].
  inversion Hk. lia.
Qed.

Section Keys.

Variable parseFromString : string -> res document.

Lemma keysOf_block block i k :
  In k (keysOf parseFromString block i) -> keyBlock k = i.
Proof.
  unfold keysOf.
  destruct (analyse parseFromString block) as [e|[h targets]].
  - intros [<-|[]]. reflexivity.
  - destruct (1 <? length targets)%nat.
    + intros H. apply split_keys_from in H. destruct H as [c [-> _]]. reflexivity.
    + intros [<-|[]]. reflexivity.
Qed.

Lemma keysOf_NoDup block i : NoDup (keysOf parseFromString block i).
Proof.
  unfold keysOf.
  destruct (analyse parseFromString block) as [e|[h targets]].
  - repeat constructor. simpl. tauto.
  - destruct (1 <? length targets)%nat.
    + apply split_keys_NoDup.
    + repeat constructor. simpl. tauto.
Qed.

Lemma keys_from l : forall i k,
  In k (concat (mapFrom (keysOf parseFromString) i l)) -> (i <= keyBlock k)%nat.
Proof.
  induction l as [|b r IH]; intros i k; simpl; [tauto|].
  intros H. apply in_app_or in H. destruct H as [H|H].
  - apply keysOf_block in H. lia.
  - apply IH in H. lia.
Qed.

Lemma keys_NoDup l : forall i,
  NoDup (concat (mapFrom (keysOf parseFromString) i l)).
Proof.
  induction l as [|b r IH]; intros i; simpl; [constructor|].
  apply NoDup_app; [apply keysOf_NoDup|apply IH|].
  intros k H1 H2. apply keysOf_block in H1. apply keys_from in H2. lia.
Qed.

Lemma ids_of_block now block i :
  map id (blockOutput parseFromString now block i)
  = map (render now) (keysOf parseFromString block i).
Proof.
  unfold blockOutput, keysOf.
  destruct (analyse parseFromString block) as [e|[h targets]]; [reflexivity|].
  destruct (1 <? length targets)%nat; [|reflexivity].
  rewrite !mapFrom_map. apply mapFrom_ext. reflexivity.
Qed.

Lemma ids_of_blocks now l : forall i,
  map id (concat (mapFrom (blockOutput parseFromString now) i l))
  = map (render now) (concat (mapFrom (keysOf parseFromString) i l)).
Proof.
  induction l as [|b r IH]; intros i; simpl; [reflexivity|].
  now rewrite !map_app, ids_of_block, IH.
Qed.

End Keys.

(* ================================================================== *)
(** * The selector pattern, position by position *)
(* ================================================================== *)

Lemma take_app (u v : string) : Js.take (String.length u) (u ++ v) = u.
Proof. unfold Js.take. induction u; simpl; [destruct v; reflexivity|congruence]. Qed.

Lemma prefix_app (w s : string) : prefix w s = true -> exists r, s = w ++ r.
Proof.
  revert s. induction w as [|a w IH]; intros s H.
  - now exists s.
  - destruct s as [|b s]; simpl in H; [discriminate|].
    destruct (ascii_dec a b) as [->|]; [|discriminate].
    destruct (IH s H) as [r ->]. now exists r.
Qed.

Lemma prefix_of_app (w r : string) : prefix w (w ++ r) = true.
Proof.
  induction w as [|a w IH]; simpl; [destruct r; reflexivity|].
  destruct (ascii_dec a a); [assumption|congruence].
Qed.

(** A case-sensitive literal consumes itself. *)
Lemma run_lit_app (w : string) : forall bef r g k,
  Re.run (Re.lit false w) bef (w ++ r) g k = k (Js.rev_append w bef) r g.
Proof.
  induction w as [|a w IH]; intros bef r g k; simpl; [reflexivity|].
  unfold Re.only. rewrite Ascii.eqb_refl. apply IH.
Qed.

Lemma run_lit_fail (w : string) : forall bef s g k,
  prefix w s = false -> Re.run (Re.lit false w) bef s g k = None.
Proof.
  induction w as [|a w IH]; intros bef s g k H.
  - destruct s; discriminate.
  - destruct s as [|b s]; [reflexivity|]. simpl in *.
    unfold Re.only. destruct (Ascii.eqb_spec b a) as [->|Hne].
    + destruct (ascii_dec a a); [|congruence]. now apply IH.
    + reflexivity.
Qed.

Lemma whiteRun_app (s : string) :
  s = fst (Scope.whiteRun s) ++ snd (Scope.whiteRun s).
Proof.
  induction s as [|a r IH]; simpl; [reflexivity|].
  destruct (Js.isWhite a); [|reflexivity].
  destruct (Scope.whiteRun r). simpl in *. congruence.
Qed.

(** A greedy run of white space before something that cannot start with
    white space stops at the end of the white space. *)
Lemma star_white (k : string -> string -> option Re.outcome) :
  (forall b a r, Js.isWhite a = true -> k b (String a r) = None) ->
  forall s bef,
    Re.star true Js.isWhite bef s k
    = k (Js.rev_append (fst (Scope.whiteRun s)) bef) (snd (Scope.whiteRun s)).
Proof.
  intros Hk. induction s as [|a r IH]; intros bef; simpl; [reflexivity|].
  destruct (Js.isWhite a) eqn:Ha.
  - rewrite IH. destruct (Scope.whiteRun r) as [ws rest]. simpl.
    destruct (k (Js.rev_append ws (String a bef)) rest) eqn:Hres; [reflexivity|].
    now apply Hk.
  - reflexivity.
Qed.

Lemma white_is_not_b (a : ascii) : Js.isWhite a = true -> Re.only "b" a = false.
Proof.
  destruct a as [[] [] [] [] [] [] [] []]; vm_compute; congruence.
Qed.

Lemma run_wsBody bef s g k :
  Re.run Scope.wsBody bef s g k
  = match Scope.bodyAhead s with
    | Some _ =>
        k (Js.rev_append "body" (Js.rev_append (fst (Scope.whiteRun s)) bef))
          (Scope.afterBody (snd (Scope.whiteRun s)))
          g
    | None => None
    end.
Proof.
  unfold Scope.wsBody. cbn [Re.run]. rewrite star_white.
  - unfold Scope.bodyAhead. destruct (Scope.whiteRun s) as [ws r]. cbn [fst snd].
    destruct (prefix "body" r) eqn:Hp.
    + destruct (prefix_app _ _ Hp) as [r' ->].
      rewrite run_lit_app. f_equal.
      unfold Scope.afterBody. simpl. rewrite Nat.sub_0_r.
      clear. induction r'; simpl; congruence.
    + now apply run_lit_fail.
  - intros b a r Ha. simpl. now rewrite white_is_not_b.
Qed.

Lemma bodyAhead_shape (s : string) (n : nat) :
  Scope.bodyAhead s = Some n ->
  s = (fst (Scope.whiteRun s) ++ "body") ++ Scope.afterBody (snd (Scope.whiteRun s))
  /\ n = String.length (fst (Scope.whiteRun s) ++ "body").
Proof.
  unfold Scope.bodyAhead. pose proof (whiteRun_app s) as Hs.
  destruct (Scope.whiteRun s) as [ws r]. cbn [fst snd] in *.
  destruct (prefix "body" r) eqn:Hp; [|discriminate].
  intros H. inversion H; subst n. clear H.
  destruct (prefix_app _ _ Hp) as [r' ->]. split.
  - rewrite append_assoc. rewrite Hs at 1. do 2 f_equal.
    unfold Scope.afterBody. simpl. rewrite Nat.sub_0_r.
    clear. induction r'; simpl; congruence.
  - now rewrite append_length.
Qed.

Lemma matched_text (u v : string) :
  Js.take (String.length (u ++ v) - String.length v) (u ++ v) = u.
Proof.
  rewrite append_length, Nat.add_sub. apply take_app.
Qed.

Lemma matchHere_bodySelector (bef s : string) :
  Re.matchHere Pat.bodySelector bef s =
  match (if Js.isEmpty bef then Scope.bodyAhead s else None) with
  | Some _ =>
      Some (Re.RMatch (Js.rev bef) (fst (Scope.whiteRun s) ++ "body")
                      (Some EmptyString)
                      (Scope.afterBody (snd (Scope.whiteRun s))))
  | None =>
      match s with
      | String a r =>
          match (if Scope.isAnchor a then Scope.bodyAhead r else None) with
          | Some _ =>
              Some (Re.RMatch (Js.rev bef) (String a (fst (Scope.whiteRun r) ++ "body"))
                              (Some (String a EmptyString))
                              (Scope.afterBody (snd (Scope.whiteRun r))))
          | None => None
          end
      | EmptyString => None
      end
  end.
Proof.
  unfold Re.matchHere, Pat.bodySelector.
  change (Re.Seq (Re.Star true Js.isWhite) (Re.lit false "body")) with Scope.wsBody.
  cbn [Re.run].
  assert (Hstart : forall g,
            match bef with
            | EmptyString => Re.run Scope.wsBody bef s g
                               (fun bef' s' g' => Some (Re.Outcome bef' s' g'))
            | String _ _ => None
            end
            = match (if Js.isEmpty bef then Scope.bodyAhead s else None) with
              | Some _ =>
                  Some (Re.Outcome
                          (Js.rev_append "body" (Js.rev_append (fst (Scope.whiteRun s)) bef))
                          (Scope.afterBody (snd (Scope.whiteRun s))) g)
              | None => None
              end).
  { intros g. destruct bef; simpl Js.isEmpty; cbv iota; [|reflexivity].
    rewrite run_wsBody. reflexivity. }
  rewrite Hstart. clear Hstart.
  destruct (if Js.isEmpty bef then Scope.bodyAhead s else None) as [n|] eqn:Hs.
  - destruct (Js.isEmpty bef); [|discriminate].
    destruct (bodyAhead_shape _ Hs) as [Heq _].
    cbn [Re.o_rest Re.o_group]. f_equal. f_equal.
    + rewrite Heq at 1 3. apply matched_text.
    + rewrite Nat.sub_diag. unfold Js.take. destruct s; reflexivity.
  - clear Hs. destruct s as [|a r]; [reflexivity|].
    assert (Hone : Js.take (String.length (String a r) - String.length r) (String a r)
                   = String a EmptyString).
    { simpl String.length. rewrite Nat.sub_succ_l, Nat.sub_diag by lia.
      unfold Js.take. simpl. destruct r; reflexivity. }
    unfold Scope.isAnchor, Re.only. rewrite !Hone, !run_wsBody.
    destruct (Ascii.eqb_spec a "}") as [->|Hb]; simpl orb.
    + destruct (Scope.bodyAhead r) as [n|] eqn:Hr; [|reflexivity].
      destruct (bodyAhead_shape _ Hr) as [Heq _].
      cbn [Re.o_rest Re.o_group]. f_equal. f_equal.
      rewrite Heq at 1 3.
      apply (matched_text (String "}" (fst (Scope.whiteRun r) ++ "body"))).
    + destruct (Ascii.eqb_spec a ",") as [->|Hc]; [|reflexivity].
      destruct (Scope.bodyAhead r) as [n|] eqn:Hr; [|reflexivity].
      destruct (bodyAhead_shape _ Hr) as [Heq _].
      cbn [Re.o_rest Re.o_group]. f_equal. f_equal.
      rewrite Heq at 1 3.
      apply (matched_text (String "," (fst (Scope.whiteRun r) ++ "body"))).
Qed.

(** A replacement text without dollar sign stands for itself. *)
Lemma substitute_plain (m : Re.rmatch) (t : string) :
  Scope.plainId t = true -> Re.substitute t m = t.
Proof.
  unfold Scope.plainId. induction t as [|a t IH]; [reflexivity|].
  intros H. simpl in H. apply andb_prop in H. destruct H as [Ha Ht].
  specialize (IH Ht).
  destruct a as [[] [] [] [] [] [] [] []]; try discriminate Ha; simpl; now rewrite IH.
Qed.

Lemma substitute_template (m : Re.rmatch) (wrapperId : string) :
  Scope.plainId wrapperId = true ->
  Re.substitute ("$1 #" ++ wrapperId) m = Re.groupText m ++ " #" ++ wrapperId.
Proof.
  intros H. simpl. now rewrite substitute_plain.
Qed.

Lemma bodyAhead_empty : Scope.bodyAhead EmptyString = None.
Proof. reflexivity. Qed.

Lemma replace_is_rewrite (wrapperId : string) :
  Scope.plainId wrapperId = true ->
  forall s bef skip,
    Re.replaceFrom Pat.bodySelector ("$1 #" ++ wrapperId) bef s skip
    = Scope.rewrite wrapperId (Js.isEmpty bef) s skip.
Proof.
  intros Hid. induction s as [|a r IH]; intros bef skip.
  - destruct skip; [|reflexivity].
    cbn [Re.replaceFrom Scope.rewrite]. rewrite matchHere_bodySelector.
    rewrite bodyAhead_empty. now destruct (Js.isEmpty bef).
  - destruct skip as [|n]; cbn [Re.replaceFrom Scope.rewrite]; [|apply IH].
    rewrite matchHere_bodySelector.
    destruct (if Js.isEmpty bef then Scope.bodyAhead (String a r) else None)
      as [n|] eqn:Hs.
    + destruct (Js.isEmpty bef); [|discriminate].
      destruct (bodyAhead_shape _ Hs) as [_ Hn].
      rewrite substitute_template by assumption.
      cbn [Re.m_text Re.groupText Re.m_group]. rewrite IH, <- Hn. simpl Js.isEmpty.
      destruct (fst (Scope.whiteRun (String a r)) ++ "body") eqn:Htext.
      * destruct (fst (Scope.whiteRun (String a r))); discriminate.
      * simpl. reflexivity.
    + destruct (if Scope.isAnchor a then Scope.bodyAhead r else None) as [n|] eqn:Hr.
      * destruct (Scope.isAnchor a); [|discriminate].
        destruct (bodyAhead_shape _ Hr) as [_ Hn].
        rewrite substitute_template by assumption.
        cbn [Re.m_text Re.groupText Re.m_group]. rewrite IH.
        simpl String.length. rewrite <- Hn. simpl.
        now rewrite Nat.sub_0_r.
      * now rewrite IH.
Qed.

(* ================================================================== *)
(** * Texts that lack the first character of a pattern *)
(* ================================================================== *)

Lemma allUnits_trimStart p s : Js.allUnits p s = true -> Js.allUnits p (Js.trimStart s) = true.
Proof.
  induction s as [|a r IH]; simpl; [auto|].
  intros H. destruct (Js.isWhite a); [|exact H].
  apply andb_prop in H. tauto.
Qed.

Lemma allUnits_trimEnd p s : Js.allUnits p s = true -> Js.allUnits p (Js.trimEnd s) = true.
Proof.
  induction s as [|a r IH]; simpl; [auto|].
  intros H. apply andb_prop in H. destruct H as [Ha Hr]. specialize (IH Hr).
  destruct (Js.trimEnd r).
  - destruct (Js.isWhite a); simpl; [reflexivity|now rewrite Ha].
  - simpl in *. now rewrite Ha.
Qed.

Lemma allUnits_trim p s : Js.allUnits p s = true -> Js.allUnits p (Js.trim s) = true.
Proof. intros H. now apply allUnits_trimEnd, allUnits_trimStart. Qed.

Lemma isCi_backtick a : Re.isCi "`" a = Ascii.eqb a "`".
Proof. destruct a as [[] [] [] [] [] [] [] []]; reflexivity. Qed.

Lemma isCi_lt a : Re.isCi "<" a = Ascii.eqb a "<".
Proof. destruct a as [[] [] [] [] [] [] [] []]; reflexivity. Qed.

Lemma fence_needs_backtick bef s :
  match s with String a _ => Ascii.eqb a "`" = false | EmptyString => True end ->
  Re.matchHere Pat.fence bef s = None.
Proof.
  unfold Re.matchHere, Pat.fence. cbn [Re.run Re.lit].
  destruct s as [|a r]; [reflexivity|]. intros H. now rewrite isCi_backtick, H.
Qed.

Lemma rawDocument_needs_lt bef s :
  match s with String a _ => Ascii.eqb a "<" = false | EmptyString => True end ->
  Re.matchHere Pat.rawDocument bef s = None.
Proof.
  unfold Re.matchHere, Pat.rawDocument. cbn [Re.run Re.lit].
  destruct s as [|a r]; [reflexivity|]. intros H. now rewrite isCi_lt, H.
Qed.

Lemma matchAll_none (r : Re.regex) (c : ascii) :
  (forall bef s,
      match s with String a _ => Ascii.eqb a c = false | EmptyString => True end ->
      Re.matchHere r bef s = None) ->
  forall s bef, Js.without c s = true -> Re.matchAllFrom r bef s 0 = [].
Proof.
  intros Hr. unfold Js.without. induction s as [|a s IH]; intros bef H; simpl in *.
  - now rewrite Hr.
  - apply andb_prop in H. destruct H as [Ha Hs].
    rewrite Hr by (now apply negb_true_iff in Ha). now apply IH.
Qed.

Lemma includes_needs_first (c : ascii) (w : string) : forall s,
  Js.without c s = true -> Js.includes s (String c w) = false.
Proof.
  unfold Js.without. induction s as [|a s IH]; intros H; simpl in *; [reflexivity|].
  apply andb_prop in H. destruct H as [Ha Hs]. rewrite (IH Hs).
  destruct (ascii_dec c a) as [->|]; [|reflexivity].
  now rewrite Ascii.eqb_refl in Ha.
Qed.

(** A text with neither a backtick nor a left angle bracket has no block. *)
Lemma blocks_of_plain_text (text : string) :
  Js.without "`" text = true -> Js.without "<" text = true -> blocks text = [].
Proof.
  intros Ht Hl. unfold blocks, mdMatches, rawMatches, Re.matchAll.
  rewrite (matchAll_none Pat.fence "`" fence_needs_backtick) by assumption.
  rewrite (matchAll_none Pat.rawDocument "<" rawDocument_needs_lt) by assumption.
  simpl.
  rewrite !includes_needs_first by (now apply allUnits_trim).
  now rewrite andb_false_r.
Qed.

(* ================================================================== *)
(** * The 30-unit rule on the split path *)
(* ================================================================== *)

Lemma take_length (n : nat) : forall s,
  (n <= String.length s)%nat -> String.length (Js.take n s) = n.
Proof.
  unfold Js.take. induction n as [|n IH]; intros s H.
  - destruct s; reflexivity.
  - destruct s as [|a s]; simpl in *; [lia|]. rewrite IH; lia.
Qed.

Lemma truncateTitle_rule (t : string) :
  ((String.length t <= 30)%nat -> truncateTitle t = t)
  /\ ((30 < String.length t)%nat ->
      truncateTitle t = Js.take 30 t ++ "..." /\ String.length (truncateTitle t) = 33)
  /\ (String.length (truncateTitle t) <= 33)%nat.
Proof.
  unfold truncateTitle.
  destruct (30 <? String.length t)%nat eqn:H.
  - apply Nat.ltb_lt in H.
    assert (Hl : String.length (Js.take 30 t ++ "...") = 33).
    { rewrite append_length, take_length by lia. reflexivity. }
    split; [lia|]. split; [auto|]. lia.
  - apply Nat.ltb_ge in H. split; [reflexivity|]. split; [lia|lia].
Qed.

Lemma orElse_truthy (a b : string) : Js.truthy b = true -> Js.truthy (Js.orElse a b) = true.
Proof. unfold Js.orElse. destruct (Js.truthy a) eqn:Ha; auto. Qed.

Lemma titleText_truthy (child : node) (i : nat) : Js.truthy (titleText child i) = true.
Proof. unfold titleText. repeat apply orElse_truthy. reflexivity. Qed.

(** On the split path the title obeys the rule of the record. *)
Lemma split_title_obeys_rule now h i child k :
  let a := splitArtifact now h i child k in
  title a <> EmptyString /\ (String.length (title a) <= 33)%nat.
Proof.
  simpl. split; [|apply truncateTitle_rule].
  pose proof (titleText_truthy child k) as H. unfold truncateTitle.
  destruct (30 <? String.length (titleText child k))%nat eqn:Hl.
  - apply Nat.ltb_lt in Hl.
    destruct (titleText child k); [simpl in Hl; lia|]. discriminate.
  - destruct (titleText child k); [discriminate H|discriminate].
Qed.

(* ================================================================== *)
(** * The wrapper-peel step and the split *)
(* ================================================================== *)



Section Claims.

Variable parseFromString : string -> res document.

Lemma blockOutput_error now block i e :
  analyse parseFromString block = inl e ->
  blockOutput parseFromString now block i = [errArtifact now block i].
Proof. unfold blockOutput. now intros ->. Qed.


(** C4.  A block whose targets after the wrapper-peel number N > 1 appends
    exactly N artifacts, in the order of the targets.  The code of the k-th
    is the standalone document around the head markup of the block and the
    outer markup of the k-th target, its body declared with zero margin, zero
    padding and a transparent background; its title is the first non-empty
    of: the trimmed text of the first h1, h2 or h3 descendant, the title
    attribute, the aria-label attribute, and [Card k+1] -- under the
    30-unit rule of the record. *)
Theorem C4_split_one_artifact_per_target
    (now : Z) (block : string) (i : nat) (doc : document) (targets : list node)
    (st : list Artifact) :
  parseFromString block = inr doc ->
  peel (getMeaningfulChildren (body doc)) = inr targets ->
  (1 < length targets)%nat ->
  exists out,
    snd (processBlock parseFromString now block i st) = (st ++ out)%list
    /\ length out = length targets
    /\ forall k child, nth_error targets k = Some child ->
         exists a, nth_error out k = Some a
           /\ code a = docPrefix ++ innerHTML (head doc) ++ docMiddle
                       ++ outerHTML child ++ docSuffix
           /\ title a = truncateTitle (resolvedTitle child k).
Proof.
  intros Hparse Hpeel Hlen.
  exists (mapFrom (splitArtifact now (innerHTML (head doc)) i) 0 targets).
  split; [|split].
  - rewrite processBlock_spec. simpl. f_equal.
    unfold blockOutput, analyse.
    rewrite Hparse. simpl. rewrite Hpeel. simpl.
    apply Nat.ltb_lt in Hlen. now rewrite Hlen.
  - apply mapFrom_length.
  - intros k child Hk. rewrite mapFrom_nth_error, Hk. simpl.
    eexists. split; [reflexivity|]. split.
    + simpl. unfold splitCode, docPrefix, docMiddle, docSuffix.
      repeat rewrite append_assoc. reflexivity.
    + simpl. f_equal. unfold titleText, resolvedTitle, Js.orElse, optText.
      destruct (querySelector child ["h1"; "h2"; "h3"]) as [h|]; simpl.
      * destruct (Js.trim (textContent h)); simpl; [|reflexivity].
        destruct (getAttribute child "title") as [[|]|]; simpl; try reflexivity;
        destruct (getAttribute child "aria-label") as [[|]|]; reflexivity.
      * destruct (getAttribute child "title") as [[|]|]; simpl; try reflexivity;
        destruct (getAttribute child "aria-label") as [[|]|]; reflexivity.
Qed.


(* ------------------------------------------------------------------ *)
(** ** Failure isolation *)

Lemma analyse_error block e :
  (parseFromString block = inl e
   \/ exists doc, parseFromString block = inr doc
                  /\ peel (getMeaningfulChildren (body doc)) = inl e) ->
  analyse parseFromString block = inl e.
Proof.
  unfold analyse. intros [H|[doc [H1 H2]]].
  - now rewrite H.
  - rewrite H1. simpl. now rewrite H2.
Qed.

(** C5.  When parsing or splitting the block at some position throws, the
    block contributes exactly one artifact, whose code is the block text and
    whose title is [Artifact n] for its 1-based position n; the blocks before
    and after it contribute what the callback gives for them at their own
    positions, whatever the failing block is. *)
Theorem C5_failing_block_is_isolated
    (now : Z) (text : string) (pre post : list string) (b : string) (e : exn) :
  blocks text = (pre ++ b :: post)%list ->
  (parseFromString b = inl e
   \/ exists doc, parseFromString b = inr doc
                  /\ peel (getMeaningfulChildren (body doc)) = inl e) ->
  exists fallback,
    extractArtifacts parseFromString now text
    = (runBlocks parseFromString now 0 pre
       ++ [fallback]
       ++ runBlocks parseFromString now (S (length pre)) post)%list
    /\ code fallback = b
    /\ title fallback = "Artifact " ++ Js.showNat (length pre + 1).
Proof.
  intros Hblocks Herr. apply analyse_error in Herr.
  exists (errArtifact now b (length pre)). split; [|split; reflexivity].
  rewrite extractArtifacts_spec, !runBlocks_spec, Hblocks, mapFrom_app.
  rewrite concat_app. simpl.
  erewrite blockOutput_error by eassumption. reflexivity.
Qed.

(* ------------------------------------------------------------------ *)
(** ** Block detection *)

Lemma extractArtifacts_no_block now text :
  blocks text = [] -> extractArtifacts parseFromString now text = [].
Proof. intros H. rewrite extractArtifacts_spec, H. reflexivity. Qed.

(** C6.  When no fenced block matches, no raw document span matches, and the
    trimmed text does not qualify as a bare fragment, the result is the empty
    list. *)
Theorem C6_no_tier_no_artifact (now : Z) (text : string) :
  mdMatches text = [] ->
  rawMatches text = [] ->
  Re.test Pat.markup (Js.trim text)
  && (Js.includes (Js.trim text) "<div" || Js.includes (Js.trim text) "<style") = false ->
  extractArtifacts parseFromString now text = [].
Proof.
  intros Hmd Hraw Hfrag. apply extractArtifacts_no_block.
  unfold blocks. rewrite Hmd, Hraw. simpl. now rewrite Hfrag.
Qed.

(** In particular a text with neither a backtick nor a left angle bracket
    gives no artifact. *)
Lemma plain_text_yields_nothing (now : Z) (text : string) :
  Js.without "`" text = true -> Js.without "<" text = true ->
  extractArtifacts parseFromString now text = [].
Proof.
  intros Ht Hl. apply extractArtifacts_no_block. now apply blocks_of_plain_text.
Qed.

Lemma blockOutput_no_split now block i :
  splits parseFromString block = false ->
  map code (blockOutput parseFromString now block i) = [block].
Proof.
  unfold splits, blockOutput.
  destruct (analyse parseFromString block) as [e|[h targets]]; [reflexivity|].
  now intros ->.
Qed.

Lemma code_of_unsplit_blocks now l : forall i,
  (forall b, In b l -> splits parseFromString b = false) ->
  map code (concat (mapFrom (blockOutput parseFromString now) i l)) = l.
Proof.
  induction l as [|b r IH]; intros i H; simpl; [reflexivity|].
  rewrite map_app, blockOutput_no_split by (apply H; now left).
  simpl. f_equal. apply IH. intros b' Hb'. apply H. now right.
Qed.

Lemma splits_false block :
  (forall doc targets,
      parseFromString block = inr doc ->
      peel (getMeaningfulChildren (body doc)) = inr targets ->
      (length targets <= 1)%nat) ->
  splits parseFromString block = false.
Proof.
  intros H. unfold splits, analyse.
  destruct (parseFromString block) as [e|doc] eqn:Hp; [reflexivity|]. simpl.
  destruct (peel (getMeaningfulChildren (body doc))) as [e|targets] eqn:Hpe;
    [reflexivity|].
  simpl. apply Nat.ltb_ge. exact (H doc targets eq_refl Hpe).
Qed.

(** C7.  For a text with k >= 1 fenced html blocks none of which enters the
    split branch (whenever the content of a fence parses and its targets are
    computed, they number at most one), the result has exactly k artifacts,
    and their codes are the trimmed inner contents of the fences, in the
    order of the fences. *)
Theorem C7_one_artifact_per_fence (now : Z) (text : string) :
  mdMatches text <> [] ->
  (forall m doc targets,
      In m (mdMatches text) ->
      parseFromString (Js.trim (Re.groupText m)) = inr doc ->
      peel (getMeaningfulChildren (body doc)) = inr targets ->
      (length targets <= 1)%nat) ->
  map code (extractArtifacts parseFromString now text)
  = map (fun m => Js.trim (Re.groupText m)) (mdMatches text)
  /\ length (extractArtifacts parseFromString now text) = length (mdMatches text).
Proof.
  intros Hne Hns.
  assert (Hb : blocks text = map (fun m => Js.trim (Re.groupText m)) (mdMatches text)).
  { unfold blocks. destruct (mdMatches text); [congruence|reflexivity]. }
  assert (Hc : map code (extractArtifacts parseFromString now text)
               = map (fun m => Js.trim (Re.groupText m)) (mdMatches text)).
  { rewrite extractArtifacts_spec, Hb. apply code_of_unsplit_blocks.
    intros b Hin. apply in_map_iff in Hin. destruct Hin as [m [<- Hm]].
    apply splits_false. intros doc targets. now apply Hns. }
  split; [exact Hc|].
  rewrite <- (length_map code), Hc. now rewrite length_map.
Qed.

(* ------------------------------------------------------------------ *)
(** ** Determinism *)

Lemma blockOutput_now_independent now1 now2 block i :
  map code (blockOutput parseFromString now1 block i)
  = map code (blockOutput parseFromString now2 block i)
  /\ map title (blockOutput parseFromString now1 block i)
     = map title (blockOutput parseFromString now2 block i).
Proof.
  unfold blockOutput.
  destruct (analyse parseFromString block) as [e|[h targets]]; [split; reflexivity|].
  destruct (1 <? length targets)%nat; [|split; reflexivity].
  rewrite !mapFrom_map. split; apply mapFrom_ext; reflexivity.
Qed.

(** C9.  Two runs on the same text -- which differ in the clock reading only
    -- give lists of the same length with the same codes and the same titles,
    position by position. *)
Theorem C9_rerun_same_code_and_title (now1 now2 : Z) (text : string) :
  map code (extractArtifacts parseFromString now1 text)
  = map code (extractArtifacts parseFromString now2 text)
  /\ map title (extractArtifacts parseFromString now1 text)
     = map title (extractArtifacts parseFromString now2 text)
  /\ length (extractArtifacts parseFromString now1 text)
     = length (extractArtifacts parseFromString now2 text).
Proof.
  rewrite !extractArtifacts_spec.
  assert (H : forall l i,
             map code (concat (mapFrom (blockOutput parseFromString now1) i l))
             = map code (concat (mapFrom (blockOutput parseFromString now2) i l))
             /\ map title (concat (mapFrom (blockOutput parseFromString now1) i l))
                = map title (concat (mapFrom (blockOutput parseFromString now2) i l))).
  { induction l as [|b r IH]; intros i; simpl; [split; reflexivity|].
    rewrite !map_app.
    destruct (blockOutput_now_independent now1 now2 b i) as [-> ->].
    destruct (IH (S i)) as [-> ->]. split; reflexivity. }
  destruct (H (blocks text) 0) as [Hc Ht].
  split; [exact Hc|]. split; [exact Ht|].
  rewrite <- (length_map code), Hc. now rewrite length_map.
Qed.

(* ------------------------------------------------------------------ *)
(** ** The bare-fragment tier *)

(** C10.  When neither a fenced block nor a raw document span matches, the
    only possible block is the trimmed text, and it is taken only if it
    contains [<div] or [<style] in lower case; without either the result is
    empty, as it is for markup written with upper-case tag names only. *)
Theorem C10_fragment_tier_is_case_sensitive (now : Z) (text : string) :
  mdMatches text = [] ->
  rawMatches text = [] ->
  (blocks text = [Js.trim text] \/ blocks text = [])
  /\ (blocks text <> [] ->
      Js.includes (Js.trim text) "<div" = true
      \/ Js.includes (Js.trim text) "<style" = true)
  /\ (Js.includes (Js.trim text) "<div" = false ->
      Js.includes (Js.trim text) "<style" = false ->
      extractArtifacts parseFromString now text = [])
  /\ Js.includes Sample.upperCaseDiv "<DIV" = true
  /\ extractArtifacts parseFromString now Sample.upperCaseDiv = [].
Proof.
  intros Hmd Hraw.
  assert (Hb : blocks text
               = if Re.test Pat.markup (Js.trim text)
                    && (Js.includes (Js.trim text) "<div"
                        || Js.includes (Js.trim text) "<style")
                 then [Js.trim text] else []).
  { unfold blocks. now rewrite Hmd, Hraw. }
  split; [|split; [|split; [|split]]].
  - rewrite Hb. destruct (_ && _); auto.
  - rewrite Hb. intros Hne.
    destruct (Js.includes (Js.trim text) "<div"); [now left|].
    destruct (Js.includes (Js.trim text) "<style"); [now right|].
    rewrite andb_false_r in Hne. congruence.
  - intros H1 H2. apply extractArtifacts_no_block.
    rewrite Hb, H1, H2. now rewrite andb_false_r.
  - evaluate.
  - apply extractArtifacts_no_block. evaluate.
Qed.


(* ------------------------------------------------------------------ *)
(** ** Identifiers *)

(** C8.  The identifiers in one result are pairwise distinct, whichever of
    the three paths produced them; split identifiers of a block followed by
    the fallback identifier of the same block are pairwise distinct too. *)
Theorem C8_ids_pairwise_distinct (now : Z) (text : string) :
  NoDup (map id (extractArtifacts parseFromString now text))
  /\ forall headContent block i targets,
       NoDup (map id (mapFrom (splitArtifact now headContent i) 0 targets
                      ++ [errArtifact now block i])%list).
Proof.
  split.
  - rewrite extractArtifacts_spec, ids_of_blocks.
    apply NoDup_map_injective; [apply render_inj|apply keys_NoDup].
  - intros h block i targets.
    replace (map id (mapFrom (splitArtifact now h i) 0 targets ++ [errArtifact now block i])%list)
      with (map (render now)
                (mapFrom (fun (_ : node) c => KSplit i c) 0 targets ++ [KErr i])%list).
    + apply NoDup_map_injective; [apply render_inj|].
      apply NoDup_app; [apply split_keys_NoDup|repeat constructor; simpl; tauto|].
      intros k H1 [<-|[]]. apply split_keys_from in H1.
      destruct H1 as [c [Hk _]]. discriminate Hk.
    + rewrite !map_app, !mapFrom_map. f_equal.
Qed.

(* ------------------------------------------------------------------ *)
(** ** The preview *)

Lemma scopedStyles_is_rewrite (styles wrapperId : string) :
  Scope.plainId wrapperId = true ->
  scopedStyles styles wrapperId = Scope.scoped styles wrapperId.
Proof.
  intros H. unfold scopedStyles, Re.replaceAll, Scope.scoped.
  now rewrite replace_is_rewrite.
Qed.

(** C2, as the code has it.  For a wrapper identifier without dollar sign,
    the style text of the preview is the concatenated style text read from
    left to right, where at the start of the text and after each closing
    brace or comma a run of white space (possibly empty) followed by [body]
    is replaced, white space included, by one space, [#] and the identifier,
    and every other code unit is copied; so the style text
    [body{color:red} .x{}] with the identifier [p1] gives
    [ #p1{color:red} .x{}], with a space in front, and [.bodyish{}] is left
    as it is. *)
Theorem C2_body_selector_rewrite (html wrapperId : string) (doc : document) :
  Scope.plainId wrapperId = true ->
  parseFromString html = inr doc ->
  (exists r, parseHtmlForPreview parseFromString html wrapperId = inr r
             /\ styles r
                = Scope.scoped (Js.join Js.nl (map innerHTML (styleElements doc))) wrapperId
             /\ bodyContent r = innerHTML (body doc))
  /\ (forall text, scopedStyles text wrapperId = Scope.scoped text wrapperId)
  /\ scopedStyles "body{color:red} .x{}" "p1" = " #p1{color:red} .x{}"
  /\ scopedStyles ".bodyish{}" wrapperId = ".bodyish{}".
Proof.
  intros Hid Hparse. split; [|split; [|split]].
  - unfold parseHtmlForPreview. rewrite Hparse. simpl.
    eexists. split; [reflexivity|]. split; [|reflexivity].
    simpl. now apply scopedStyles_is_rewrite.
  - intros text. now apply scopedStyles_is_rewrite.
  - reflexivity.
  - rewrite scopedStyles_is_rewrite by assumption. reflexivity.
Qed.

End Claims.

(* ================================================================== *)
(** * The statements on concrete texts *)
(* ================================================================== *)

(** The trees the example parser builds. *)
Example parse_cardWrapper :
  Mini.parseFromString Sample.cardWrapper = inr Sample.cardWrapperDocument.
Proof. vm_compute; reflexivity. Qed.

Example parse_longTitleDocument :
  Mini.parseFromString Sample.longTitleDocument
  = inr (Document
           (Element HTML "head" [] [Element HTML "title" [] [Text Sample.longTitle]])
           (Element HTML "body" [] [Element HTML "p" [] [Text "x"]])).
Proof. vm_compute; reflexivity. Qed.

Example parse_svgBlock :
  Mini.parseFromString Sample.svgBlock = inr Sample.svgDocument.
Proof. vm_compute; reflexivity. Qed.

Example parse_styledDocument :
  Mini.parseFromString Sample.styledDocument = inr Sample.styledTree.
Proof. vm_compute; reflexivity. Qed.

(** The pattern for the word card, on the class names the source discusses. *)
Example cardWord_examples :
  map isCardName ["card"; "card-wrapper"; "my card"; "cards"; "discard"; "flashcard-list"]
  = [true; true; true; false; false; false].
Proof. evaluate. Qed.

(** The two end-to-end examples of the specification. *)
Example wrapper_of_two_sections :
  map title
    (extractArtifacts Mini.parseFromString 0
       ("```html" ++ Js.nl ++
        "<div class=" ++ Js.dq ++ "wrapper" ++ Js.dq ++ ">" ++
        "<section class=" ++ Js.dq ++ "card" ++ Js.dq ++ ">A</section>" ++
        "<section class=" ++ Js.dq ++ "card" ++ Js.dq ++ ">B</section></div>" ++
        Js.nl ++ "```"))
  = ["Card 1"; "Card 2"].
Proof. evaluate. Qed.

Example single_card_fragment :
  map code (extractArtifacts Mini.parseFromString 0 Sample.singleCard)
  = [Sample.singleCard].
Proof. evaluate. Qed.

(** C1 fails on the path that keeps a block whole: the content of the title
    tag becomes the title as it is, here 41 code units long where the rule
    asks for the first 30 and an ellipsis, and an empty title tag gives an
    empty title. *)
Theorem C1_title_of_unsplit_block_not_truncated (now : Z) :
  map title (extractArtifacts Mini.parseFromString now Sample.longTitleDocument)
  = [Sample.longTitle]
  /\ String.length Sample.longTitle = 41
  /\ truncateTitle Sample.longTitle = "An unusually long document tit..."
  /\ map title (extractArtifacts Mini.parseFromString now Sample.emptyTitleDocument)
     = [EmptyString].
Proof.
  repeat split; vm_compute; reflexivity.
Qed.

(** The claim C2 as stated fails on its own example: the output starts with a
    space.  Moreover [body] separated from the brace by white space is
    replaced, and a dollar sign in the identifier is read as a replacement
    pattern. *)
Lemma C2_counterexample :
  exists r,
    parseHtmlForPreview Mini.parseFromString Sample.styledDocument "p1" = inr r
    /\ styles r = " #p1{color:red} .x{}"
    /\ styles r <> "#p1{color:red} .x{}"
    /\ scopedStyles "a{} body{}" "p1" = "a{} #p1{}"
    /\ scopedStyles "body{}" "a$$b" = " #a$b{}".
Proof.
  exists {| styles := " #p1{color:red} .x{}";
            bodyContent := "<div class=" ++ Js.dq ++ "x" ++ Js.dq ++ ">hi</div>" |}.
  split; [vm_compute; reflexivity|]. split; [reflexivity|].
  split; [simpl; discriminate|].
  split; vm_compute; reflexivity.
Qed.

Lemma C2_witness :
  exists r,
    parseHtmlForPreview Mini.parseFromString Sample.styledDocument
                        "preview-artifact-block-5-0" = inr r
    /\ styles r = " #preview-artifact-block-5-0{color:red} .x{}".
Proof.
  destruct (@C2_body_selector_rewrite Mini.parseFromString Sample.styledDocument
              "preview-artifact-block-5-0" Sample.styledTree)
    as [[r [Hr [Hs _]]] _].
  - vm_compute; reflexivity.
  - vm_compute; reflexivity.
  - exists r. split; [exact Hr|]. rewrite Hs. vm_compute; reflexivity.
Defined.



Lemma C4_witness :
  length (snd (processBlock Mini.parseFromString 0 Sample.cardWrapper 0 [])) = 2
  /\ exists a, nth_error (snd (processBlock Mini.parseFromString 0 Sample.cardWrapper 0 [])) 1
               = Some a
               /\ title a = "Second".
Proof.
  destruct (@C4_split_one_artifact_per_target Mini.parseFromString 0
              Sample.cardWrapper 0 Sample.cardWrapperDocument
              [Sample.firstCard; Sample.secondCard] [])
    as [out [Hout [Hlen Hk]]].
  - vm_compute; reflexivity.
  - vm_compute; reflexivity.
  - simpl. lia.
  - rewrite Hout. split; [exact Hlen|].
    destruct (Hk 1 Sample.secondCard eq_refl) as [a [Ha [_ Ht]]].
    exists a. split; [exact Ha|]. rewrite Ht. vm_compute; reflexivity.
Defined.

Lemma C5_witness :
  map title (extractArtifacts Mini.parseFromString 0 Sample.fencesWithSvg)
  = ["First"; "Second"; "Artifact 2"; "Artifact 3"].
Proof.
  destruct (@C5_failing_block_is_isolated Mini.parseFromString 0 Sample.fencesWithSvg
              [Sample.cardWrapper] ["<p>last</p>"] Sample.svgBlock TypeError)
    as [fb [H [Hc Ht]]].
  - vm_compute; reflexivity.
  - right. exists Sample.svgDocument. split; vm_compute; reflexivity.
  - rewrite H, !map_app. simpl map at 2. rewrite Ht. vm_compute; reflexivity.
Defined.

Lemma C6_witness :
  extractArtifacts Mini.parseFromString 0 Sample.plainText = [].
Proof.
  apply (@C6_no_tier_no_artifact Mini.parseFromString 0 Sample.plainText);
    vm_compute; reflexivity.
Defined.

Lemma C7_witness :
  map code (extractArtifacts Mini.parseFromString 0 Sample.twoFences)
  = ["<p>one</p>"; "<div><p>two</p></div>"].
Proof.
  destruct (@C7_one_artifact_per_fence Mini.parseFromString 0 Sample.twoFences)
    as [H _].
  - vm_compute. discriminate.
  - intros m doc targets Hm Hdoc Hpeel. vm_compute in Hm.
    destruct Hm as [<-|[<-|[]]]; vm_compute in Hdoc; inversion Hdoc; subst doc;
      vm_compute in Hpeel; inversion Hpeel; subst targets; simpl; lia.
  - rewrite H. vm_compute; reflexivity.
Defined.

Lemma C10_witness :
  blocks Sample.upperCaseDiv = []
  /\ extractArtifacts Mini.parseFromString 0 Sample.upperCaseDiv = [].
Proof.
  destruct (@C10_fragment_tier_is_case_sensitive Mini.parseFromString 0
              Sample.upperCaseDiv) as [H1 [H2 [H3 _]]].
  - vm_compute; reflexivity.
  - vm_compute; reflexivity.
  - split.
    + destruct H1 as [H1|H1]; [|exact H1].
      vm_compute in H1. discriminate H1.
    + apply H3; vm_compute; reflexivity.
Defined.

(* ================================================================== *)
(** * Further properties of the extraction *)
(* ================================================================== *)

Lemma in_mapFrom {A B} (f : A -> nat -> B) (l : list A) : forall i b,
  In b (mapFrom f i l) -> exists x k, In x l /\ b = f x k.
Proof.
  induction l as [|x r IH]; intros i b; simpl; [tauto|].
  intros [<-|H].
  - exists x, i. auto.
  - destruct (IH _ _ H) as [y [k [Hy ->]]]. exists y, k. auto.
Qed.

Lemma in_concat_mapFrom {A B} (f : A -> nat -> list B) (l : list A) : forall i b,
  In b (concat (mapFrom f i l)) -> exists x k, In x l /\ In b (f x k).
Proof.
  induction l as [|x r IH]; intros i b; simpl; [tauto|].
  intros H. apply in_app_or in H. destruct H as [H|H].
  - exists x, i. auto.
  - destruct (IH _ _ H) as [y [k [Hy Hb]]]. exists y, k. auto.
Qed.

Lemma allUnits_app p (u v : string) :
  Js.allUnits p (u ++ v) = Js.allUnits p u && Js.allUnits p v.
Proof. induction u; simpl; [reflexivity|]. now rewrite IHu, andb_assoc. Qed.

Lemma allUnits_weaken (p q : ascii -> bool) (s : string) :
  (forall a, p a = true -> q a = true) ->
  Js.allUnits p s = true -> Js.allUnits q s = true.
Proof.
  intros Hpq. induction s as [|a r IH]; simpl; [auto|].
  intros H. apply andb_prop in H. destruct H as [Ha Hr].
  now rewrite (Hpq _ Ha), IH.
Qed.

(** ** Trimming *)

Lemma trimStart_head s : headNotWhite (Js.trimStart s).
Proof.
  induction s as [|a r IH]; simpl; [exact I|].
  destruct (Js.isWhite a) eqn:Ha; [exact IH|exact Ha].
Qed.

Lemma trimStart_fixed s : headNotWhite s -> Js.trimStart s = s.
Proof. destruct s as [|a r]; simpl; [auto|]. now intros ->. Qed.

Lemma trimEnd_head s : headNotWhite s -> headNotWhite (Js.trimEnd s).
Proof.
  destruct s as [|a r]; simpl; [auto|]. intros Ha.
  destruct (Js.trimEnd r); [rewrite Ha|]; exact Ha.
Qed.

Lemma trimEnd_idempotent s : Js.trimEnd (Js.trimEnd s) = Js.trimEnd s.
Proof.
  induction s as [|a r IH]; simpl; [reflexivity|].
  destruct (Js.trimEnd r) as [|b r'] eqn:Hr.
  - destruct (Js.isWhite a) eqn:Ha; simpl; [reflexivity|now rewrite Ha].
  - change (Js.trimEnd (String a (String b r'))) with
      (match Js.trimEnd (String b r') with
       | EmptyString => if Js.isWhite a then EmptyString else String a EmptyString
       | x => String a x
       end).
    now rewrite IH.
Qed.

Lemma trim_idempotent s : Js.trim (Js.trim s) = Js.trim s.
Proof.
  unfold Js.trim.
  rewrite (trimStart_fixed (Js.trimEnd (Js.trimStart s)))
    by apply trimEnd_head, trimStart_head.
  apply trimEnd_idempotent.
Qed.

(** Units that are not white space in front of a text survive [trimEnd]. *)
Lemma trimEnd_app (u v : string) :
  Js.allUnits (fun a => negb (Js.isWhite a)) u = true ->
  Js.trimEnd (u ++ v) = u ++ Js.trimEnd v.
Proof.
  induction u as [|a u IH]; simpl; [reflexivity|].
  intros H. apply andb_prop in H. destruct H as [Ha Hu].
  rewrite (IH Hu). apply negb_true_iff in Ha.
  destruct (u ++ Js.trimEnd v); [now rewrite Ha|reflexivity].
Qed.

(** A text that ends with a trimmed, non-empty text is not shortened. *)
Lemma trimEnd_keeps_end (u w : string) :
  Js.trimEnd w = w -> w <> EmptyString -> Js.trimEnd (u ++ w) = u ++ w.
Proof.
  intros Hw Hne. induction u as [|a u IH]; simpl; [exact Hw|].
  rewrite IH. destruct (u ++ w) eqn:E; [|reflexivity].
  destruct u; simpl in E; [congruence|discriminate].
Qed.

Lemma splitCode_trimmed h child : Js.trim (splitCode h child) = splitCode h child.
Proof.
  unfold Js.trim. rewrite trimStart_fixed by reflexivity.
  unfold splitCode.
  repeat rewrite <- append_assoc.
  apply trimEnd_keeps_end; [reflexivity|discriminate].
Qed.

Lemma blocks_trimmed text b : In b (blocks text) -> Js.trim b = b.
Proof.
  unfold blocks.
  destruct (0 <? length (mdMatches text))%nat.
  - intros H. apply in_map_iff in H. destruct H as [m [<- _]]. apply trim_idempotent.
  - destruct (0 <? length (rawMatches text))%nat.
    + intros H. apply in_map_iff in H. destruct H as [m [<- _]]. apply trim_idempotent.
    + destruct (_ && _); [|intros []].
      intros [<-|[]]. apply trim_idempotent.
Qed.

Section Extraction.

Variable parseFromString : string -> res document.

Lemma blockOutput_cases now block i a :
  In a (blockOutput parseFromString now block i) ->
  a = errArtifact now block i \/ a = blockArtifact now block i
  \/ exists h targets child k,
       analyse parseFromString block = inr (h, targets)
       /\ (1 < length targets)%nat /\ In child targets
       /\ a = splitArtifact now h i child k.
Proof.
  unfold blockOutput.
  destruct (analyse parseFromString block) as [e|[h targets]].
  - intros [<-|[]]. now left.
  - destruct (1 <? length targets)%nat eqn:Hl.
    + intros H. apply in_mapFrom in H. destruct H as [child [k [Hc ->]]].
      right. right. exists h, targets, child, k.
      apply Nat.ltb_lt in Hl. auto.
    + intros [<-|[]]. right. now left.
Qed.

Lemma blockOutput_length now block i :
  (1 <= length (blockOutput parseFromString now block i))%nat.
Proof.
  unfold blockOutput.
  destruct (analyse parseFromString block) as [e|[h targets]]; simpl; [lia|].
  destruct (1 <? length targets)%nat eqn:Hl; simpl; [|lia].
  apply Nat.ltb_lt in Hl. rewrite mapFrom_length. lia.
Qed.

Lemma outputs_length now l : forall i,
  (length l <= length (concat (mapFrom (blockOutput parseFromString now) i l)))%nat.
Proof.
  induction l as [|b r IH]; intros i; simpl; [lia|].
  rewrite length_app. pose proof (blockOutput_length now b i). specialize (IH (S i)). lia.
Qed.

(** X1.  No detected block is dropped: the result has at least as many
    artifacts as there are blocks, and it is empty exactly when no block was
    detected. *)
Theorem X1_every_block_yields_an_artifact (now : Z) (text : string) :
  (length (blocks text) <= length (extractArtifacts parseFromString now text))%nat
  /\ (extractArtifacts parseFromString now text = [] <-> blocks text = []).
Proof.
  rewrite extractArtifacts_spec.
  pose proof (outputs_length now (blocks text) 0) as H. split; [exact H|].
  split.
  - intros E. rewrite E in H. simpl in H. destruct (blocks text); [reflexivity|].
    simpl in H. lia.
  - intros ->. reflexivity.
Qed.

(** X2.  The code of every artifact is trimmed: it neither starts nor ends
    with white space, so trimming it again changes nothing. *)
Theorem X2_code_is_trimmed (now : Z) (text : string) (a : Artifact) :
  In a (extractArtifacts parseFromString now text) ->
  Js.trim (code a) = code a.
Proof.
  rewrite extractArtifacts_spec. intros H.
  apply in_concat_mapFrom in H. destruct H as [b [i [Hb Ha]]].
  apply blocks_trimmed in Hb.
  apply blockOutput_cases in Ha.
  destruct Ha as [->|[->|[h [targets [child [k [_ [_ [_ ->]]]]]]]]]; simpl.
  - exact Hb.
  - exact Hb.
  - apply splitCode_trimmed.
Qed.

(** X3.  On the split branch the title rule holds: every artifact a
    splitting block appends has a non-empty title of at most 33 code units,
    which is the resolved text itself when that has at most 30 units and its
    first 30 units followed by three dots otherwise. *)
Theorem X3_split_titles_obey_the_rule
    (now : Z) (block : string) (i : nat) (doc : document) (targets : list node)
    (a : Artifact) :
  parseFromString block = inr doc ->
  peel (getMeaningfulChildren (body doc)) = inr targets ->
  (1 < length targets)%nat ->
  In a (snd (processBlock parseFromString now block i [])) ->
  title a <> EmptyString
  /\ (String.length (title a) <= 33)%nat
  /\ exists child k,
       In child targets
       /\ title a = (if (30 <? String.length (resolvedTitle child k))%nat
                     then Js.take 30 (resolvedTitle child k) ++ "..."
                     else resolvedTitle child k).
Proof.
  intros Hparse Hpeel Hlen. rewrite processBlock_spec. simpl.
  assert (Han : analyse parseFromString block = inr (innerHTML (head doc), targets)).
  { unfold analyse. rewrite Hparse. simpl. now rewrite Hpeel. }
  unfold blockOutput. rewrite Han.
  apply Nat.ltb_lt in Hlen. rewrite Hlen.
  intros H. apply in_mapFrom in H. destruct H as [child [k [Hc ->]]].
  destruct (split_title_obeys_rule now (innerHTML (head doc)) i child k) as [H1 H2].
  split; [exact H1|]. split; [exact H2|].
  exists child, k. split; [exact Hc|].
  simpl. unfold truncateTitle.
  replace (titleText child k) with (resolvedTitle child k); [reflexivity|].
  unfold titleText, resolvedTitle, Js.orElse, optText.
  destruct (querySelector child ["h1"; "h2"; "h3"]) as [h|]; simpl.
  - destruct (Js.trim (textContent h)); simpl; [|reflexivity].
    destruct (getAttribute child "title") as [[|]|]; simpl; try reflexivity;
    destruct (getAttribute child "aria-label") as [[|]|]; reflexivity.
  - destruct (getAttribute child "title") as [[|]|]; simpl; try reflexivity;
    destruct (getAttribute child "aria-label") as [[|]|]; reflexivity.
Qed.

End Extraction.

(* ================================================================== *)
(** * Further properties of the preview *)
(* ================================================================== *)

Lemma includes_prefix (s w : string) : prefix w s = true -> Js.includes s w = true.
Proof. intros H. destruct s; cbn [Js.includes]; now rewrite H. Qed.

Lemma includes_app (u w v : string) : Js.includes (u ++ w ++ v) w = true.
Proof.
  induction u as [|a u IH].
  - apply includes_prefix. exact (prefix_of_app w v).
  - simpl. rewrite IH. apply orb_true_r.
Qed.

Lemma bodyAhead_includes (s : string) (n : nat) :
  Scope.bodyAhead s = Some n -> Js.includes s "body" = true.
Proof.
  intros H. destruct (bodyAhead_shape _ H) as [E _].
  rewrite E, append_assoc. apply includes_app.
Qed.

Lemma includes_tail (a : ascii) (r w : string) :
  Js.includes (String a r) w = false -> Js.includes r w = false.
Proof. simpl. intros H. apply orb_false_elim in H. tauto. Qed.

Lemma bodyAhead_none (s : string) :
  Js.includes s "body" = false -> Scope.bodyAhead s = None.
Proof.
  intros H. destruct (Scope.bodyAhead s) eqn:E; [|reflexivity].
  apply bodyAhead_includes in E. congruence.
Qed.

Lemma replace_without_body (tpl : string) : forall s bef,
  Js.includes s "body" = false ->
  Re.replaceFrom Pat.bodySelector tpl bef s 0 = s.
Proof.
  induction s as [|a r IH]; intros bef H; cbn [Re.replaceFrom];
    rewrite matchHere_bodySelector, (bodyAhead_none _ H).
  - now destruct (Js.isEmpty bef).
  - pose proof (includes_tail _ _ _ H) as Hr.
    rewrite (bodyAhead_none _ Hr).
    destruct (Js.isEmpty bef), (Scope.isAnchor a); now rewrite IH.
Qed.

(** X4.  A style text in which [body] does not occur is returned unchanged,
    whatever the wrapper identifier. *)
Theorem X4_styles_without_body_unchanged (styles wrapperId : string) :
  Js.includes styles "body" = false ->
  scopedStyles styles wrapperId = styles.
Proof.
  intros H. unfold scopedStyles, Re.replaceAll. now apply replace_without_body.
Qed.

Lemma X4_witness :
  scopedStyles ".card{color:red} h1,h2{margin:0}" "$1" = ".card{color:red} h1,h2{margin:0}".
Proof.
  apply (@X4_styles_without_body_unchanged ".card{color:red} h1,h2{margin:0}" "$1").
  vm_compute; reflexivity.
Defined.

(** The identifiers have no dollar sign. *)
Lemma digit_is_plain (a : ascii) :
  Js.isDigit a = true -> negb (Ascii.eqb a "$") = true.
Proof. destruct a as [[] [] [] [] [] [] [] []]; vm_compute; congruence. Qed.

Lemma showNat_plain (n : nat) : Scope.plainId (Js.showNat n) = true.
Proof.
  unfold Scope.plainId. apply allUnits_weaken with (p := Js.isDigit).
  - exact digit_is_plain.
  - apply showNat_digits.
Qed.

Lemma showZ_plain (z : Z) : Scope.plainId (Js.showZ z) = true.
Proof.
  unfold Js.showZ, NilEmpty.string_of_int, Scope.plainId.
  destruct (Z.to_int z) as [d|d]; simpl.
  - apply allUnits_weaken with (p := Js.isDigit); [exact digit_is_plain|].
    apply digits_of_uint.
  - apply allUnits_weaken with (p := Js.isDigit); [exact digit_is_plain|].
    apply digits_of_uint.
Qed.

Lemma render_plain (now : Z) (k : key) : Scope.plainId (render now k) = true.
Proof.
  pose proof (showZ_plain now) as Hz. unfold Scope.plainId in *.
  destruct k as [i c|i|i]; unfold render;
    repeat rewrite allUnits_app; rewrite Hz;
    repeat (rewrite (showNat_plain _ : Js.allUnits _ _ = true)); reflexivity.
Qed.

Section Preview.

Variable parseFromString : string -> res document.

Lemma id_is_rendered now text a :
  In a (extractArtifacts parseFromString now text) -> exists k, id a = render now k.
Proof.
  intros H. apply (in_map id) in H.
  rewrite extractArtifacts_spec, ids_of_blocks in H.
  apply in_map_iff in H. destruct H as [k [Hk _]]. now exists k.
Qed.

(** X5.  The identifier the preview card derives from an extracted artifact
    has no dollar sign, so the style text of its preview is always the text
    rewritten from left to right: no replacement pattern is ever triggered by
    an identifier. *)
Theorem X5_preview_identifier_is_plain
    (now : Z) (text : string) (a : Artifact) (styles : string) :
  In a (extractArtifacts parseFromString now text) ->
  Scope.plainId (PreviewCard.wrapperId a) = true
  /\ scopedStyles styles (PreviewCard.wrapperId a)
     = Scope.scoped styles (PreviewCard.wrapperId a).
Proof.
  intros H. destruct (id_is_rendered _ _ _ H) as [k Hk].
  assert (Hp : Scope.plainId (PreviewCard.wrapperId a) = true).
  { unfold PreviewCard.wrapperId. rewrite Hk.
    pose proof (render_plain now k) as Hr. unfold Scope.plainId in *.
    rewrite allUnits_app, Hr. reflexivity. }
  split; [exact Hp|]. now apply scopedStyles_is_rewrite.
Qed.

End Preview.

Lemma X5_witness :
  scopedStyles "body{margin:0}" "preview-artifact-block-7-0"
  = " #preview-artifact-block-7-0{margin:0}".
Proof.
  destruct (@X5_preview_identifier_is_plain Mini.parseFromString 7 Sample.singleCard
              (blockArtifact 7 Sample.singleCard 0) "body{margin:0}") as [_ H].
  - vm_compute. left. reflexivity.
  - change (PreviewCard.wrapperId (blockArtifact 7 Sample.singleCard 0))
      with ("preview-artifact-block-7-0") in H.
    rewrite H. vm_compute; reflexivity.
Defined.

(* ================================================================== *)
(** * File names and downloaded documents *)
(* ================================================================== *)

Lemma matchHere_unsafeUnit (bef s : string) :
  Re.matchHere Files.unsafeUnit bef s =
  match s with
  | String a r =>
      if Files.isUnsafe a
      then Some (Re.RMatch (Js.rev bef) (String a EmptyString) None r)
      else None
  | EmptyString => None
  end.
Proof.
  unfold Re.matchHere, Files.unsafeUnit. cbn [Re.run].
  destruct s as [|a r]; [reflexivity|].
  destruct (Files.isUnsafe a); [|reflexivity].
  cbn [Re.o_rest Re.o_group]. do 2 f_equal.
  simpl String.length. rewrite Nat.sub_succ_l, Nat.sub_diag by lia.
  unfold Js.take. simpl. destruct r; reflexivity.
Qed.

Lemma replace_unsafe_units : forall s bef,
  Re.replaceFrom Files.unsafeUnit "_" bef s 0 = Js.mapUnits sanitize s.
Proof.
  induction s as [|a r IH]; intros bef; cbn [Re.replaceFrom];
    rewrite matchHere_unsafeUnit; [reflexivity|].
  simpl Js.mapUnits. unfold sanitize at 1.
  destruct (Files.isUnsafe a).
  - cbn [Re.m_text]. simpl. now rewrite IH.
  - now rewrite IH.
Qed.

Lemma sanitize_safe (a : ascii) : negb (Files.isUnsafe (sanitize a)) = true.
Proof.
  unfold sanitize. destruct (Files.isUnsafe a) eqn:H; [reflexivity|now rewrite H].
Qed.

Lemma mapUnits_sanitize_safe (s : string) :
  Js.allUnits (fun a => negb (Files.isUnsafe a)) (Js.mapUnits sanitize s) = true.
Proof. induction s; simpl; [reflexivity|]. now rewrite sanitize_safe. Qed.

Lemma mapUnits_sanitize_fixed (s : string) :
  Js.allUnits (fun a => negb (Files.isUnsafe a)) s = true -> Js.mapUnits sanitize s = s.
Proof.
  induction s as [|a r IH]; simpl; [reflexivity|].
  intros H. apply andb_prop in H. destruct H as [Ha Hr].
  rewrite (IH Hr). unfold sanitize. apply negb_true_iff in Ha. now rewrite Ha.
Qed.

Lemma safeTitle_unfold (fallback title : string) :
  Files.safeTitle fallback title
  = Js.orElse (Js.trim (Js.mapUnits sanitize title)) fallback.
Proof. unfold Files.safeTitle, Re.replaceAll. now rewrite replace_unsafe_units. Qed.

(** X6.  The title part of a file name ([design] or [image] standing in for
    an empty one) is never empty and holds none of the nine code units that
    were to be replaced; a non-empty, trimmed title without any of them is
    used as it is. *)
Theorem X6_safe_title (fallback title : string) :
  In fallback ["design"; "image"] ->
  Files.safeTitle fallback title <> EmptyString
  /\ Js.allUnits (fun a => negb (Files.isUnsafe a)) (Files.safeTitle fallback title) = true
  /\ (title <> EmptyString -> Js.trim title = title ->
      Js.allUnits (fun a => negb (Files.isUnsafe a)) title = true ->
      Files.safeTitle fallback title = title).
Proof.
  intros Hfb. rewrite safeTitle_unfold.
  assert (Hf : fallback <> EmptyString
               /\ Js.allUnits (fun a => negb (Files.isUnsafe a)) fallback = true).
  { destruct Hfb as [<-|[<-|[]]]; split; (discriminate || reflexivity). }
  destruct Hf as [Hne Hsafe].
  split; [|split].
  - unfold Js.orElse. destruct (Js.trim (Js.mapUnits sanitize title)); simpl;
      [exact Hne|discriminate].
  - unfold Js.orElse.
    destruct (Js.truthy (Js.trim (Js.mapUnits sanitize title))); [|exact Hsafe].
    apply allUnits_trim, mapUnits_sanitize_safe.
  - intros Ht Htrim Hs. rewrite (mapUnits_sanitize_fixed _ Hs), Htrim.
    unfold Js.orElse. destruct title; [congruence|reflexivity].
Qed.

Lemma X6_witness :
  Files.safeTitle "design" "Q3: plan <draft>" = "Q3_ plan _draft_"
  /\ Files.safeTitle "image" "Summer sale" = "Summer sale".
Proof.
  split.
  - vm_compute; reflexivity.
  - apply (@X6_safe_title "image" "Summer sale");
      [simpl; tauto|discriminate|vm_compute; reflexivity|vm_compute; reflexivity].
Defined.

(** ** Numbering *)

Lemma readNat_zero (s : string) : readNat (String "0" s) = readNat s.
Proof.
  unfold readNat. simpl. destruct (NilEmpty.uint_of_string s); reflexivity.
Qed.

Lemma readNat_showNat (n : nat) : readNat (Js.showNat n) = Some n.
Proof.
  unfold readNat, Js.showNat. rewrite NilEmpty.usu. simpl.
  now rewrite DecimalNat.Unsigned.of_to.
Qed.

Lemma readNat_filler (s : string) : forall k cur,
  cur = "0" \/ cur = EmptyString ->
  readNat (filler "0" cur k ++ s) = readNat s.
Proof.
  induction k as [|k IH]; intros cur Hcur; [reflexivity|].
  destruct Hcur as [->| ->]; simpl; rewrite readNat_zero; apply IH; auto.
Qed.

Lemma filler_digits : forall k cur,
  cur = "0" \/ cur = EmptyString ->
  Js.allUnits Js.isDigit (filler "0" cur k) = true.
Proof.
  induction k as [|k IH]; intros cur Hcur; [reflexivity|].
  destruct Hcur as [->| ->]; simpl; apply IH; auto.
Qed.

(** The number printed in front of a file name reads back, whatever the
    width. *)
Lemma readNat_padStart (w n : nat) : readNat (padStart w "0" (Js.showNat n)) = Some n.
Proof.
  unfold padStart. destruct (w <=? _)%nat; [apply readNat_showNat|].
  simpl Js.isEmpty. cbv iota.
  rewrite readNat_filler by auto. apply readNat_showNat.
Qed.

Lemma padStart_digits (w n : nat) :
  Js.allUnits Js.isDigit (padStart w "0" (Js.showNat n)) = true.
Proof.
  unfold padStart. destruct (w <=? _)%nat; [apply showNat_digits|].
  simpl Js.isEmpty. cbv iota.
  rewrite allUnits_app, filler_digits by auto. apply showNat_digits.
Qed.

Lemma prefix_tells_index (i j : nat) (x y : string) :
  Files.prefix true i ++ x = Files.prefix true j ++ y -> i = j.
Proof.
  unfold Files.prefix. rewrite !append_assoc. intros H.
  apply (cut_at_separator Js.isDigit) in H;
    [|reflexivity|apply padStart_digits|apply padStart_digits].
  destruct H as [H _]. apply (f_equal readNat) in H.
  rewrite !readNat_padStart in H. inversion H. lia.
Qed.

Lemma in_mapFrom_index {A B} (f : A -> nat -> B) (l : list A) : forall i b,
  In b (mapFrom f i l) -> exists x k, (i <= k)%nat /\ b = f x k.
Proof.
  induction l as [|x r IH]; intros i b; simpl; [tauto|].
  intros [<-|H].
  - exists x, i. auto.
  - destruct (IH _ _ H) as [y [k [Hk ->]]]. exists y, k. split; [lia|reflexivity].
Qed.

Lemma NoDup_mapFrom {A B} (f : A -> nat -> B) (l : list A) :
  (forall x y i j, f x i = f y j -> i = j) ->
  forall i, NoDup (mapFrom f i l).
Proof.
  intros Hf. induction l as [|x r IH]; intros i; simpl; constructor; auto.
  intros H. apply in_mapFrom_index in H. destruct H as [y [k [Hk E]]].
  apply Hf in E. lia.
Qed.

(** X7.  With numbering switched on, no two files of one batch download
    have the same name, whatever the titles; likewise the names a card gives
    its HTML file and its image differ between cards at different
    positions. *)
Theorem X7_numbered_names_are_distinct (artifacts : list Artifact) :
  NoDup (map fst (App.handleDownloadAllHtml true artifacts))
  /\ (forall i j a b,
        fst (PreviewCard.handleHtmlDownload true i a)
        = fst (PreviewCard.handleHtmlDownload true j b) -> i = j)
  /\ (forall i j a b,
        PreviewCard.imageName true i a = PreviewCard.imageName true j b -> i = j).
Proof.
  split; [|split].
  - unfold App.handleDownloadAllHtml.
    destruct (length artifacts =? 0)%nat; [constructor|].
    rewrite mapFrom_map. apply NoDup_mapFrom.
    intros x y i j H. simpl in H. now apply prefix_tells_index in H.
  - intros i j a b H. simpl in H. now apply prefix_tells_index in H.
  - intros i j a b H. unfold PreviewCard.imageName in H.
    now apply prefix_tells_index in H.
Qed.

(** ** The document written to a file *)

Lemma isDocument_doctype (r : string) : Files.isDocument ("<!DOCTYPE" ++ r) = true.
Proof. vm_compute. reflexivity. Qed.

Lemma doctype_test (r : string) : Re.test Files.doctypeStart ("<!DOCTYPE" ++ r) = true.
Proof. vm_compute. reflexivity. Qed.

Lemma wrapperHead_starts (t r : string) :
  exists r', Files.wrapperHead t ++ r = "<!DOCTYPE" ++ r'.
Proof.
  unfold Files.wrapperHead. eexists. simpl. reflexivity.
Qed.

Lemma splitCode_starts (h : string) (child : node) :
  exists r', splitCode h child = "<!DOCTYPE" ++ r'.
Proof. unfold splitCode. eexists. simpl. reflexivity. Qed.

(** X8.  Whatever the artifact, the document a download writes starts, after
    optional white space, with a doctype or an html tag: it passes the very
    test that decides whether to wrap. *)
Theorem X8_download_is_a_document (a : Artifact) :
  Files.isDocument (PreviewCard.getFullHtml a) = true
  /\ Files.isDocument (App.fullHtml a) = true.
Proof.
  split.
  - unfold PreviewCard.getFullHtml.
    destruct (Files.isDocument (Js.trim (code a))) eqn:H; [exact H|].
    destruct (wrapperHead_starts (title a)
                ("<body style=" ++ Js.dq ++ "margin:0;padding:0;background:#fff;"
                 ++ Js.dq ++ ">" ++ Js.nl ++ code a ++ Js.nl ++ "</body>" ++ Js.nl ++ "</html>"))
      as [r' ->].
    apply isDocument_doctype.
  - unfold App.fullHtml.
    destruct (Re.test Files.doctypeStart (Js.trim (code a))) eqn:H1;
      destruct (Re.test Files.htmlStart (Js.trim (code a))) eqn:H2; cbn [negb andb];
      try (unfold Files.isDocument; rewrite H1, H2; reflexivity).
    destruct (wrapperHead_starts (title a)
                ("<body style=" ++ Js.dq ++ "margin:0;padding:0;"
                 ++ Js.dq ++ ">" ++ Js.nl ++ Js.trim (code a) ++ Js.nl ++ "</body>"
                 ++ Js.nl ++ "</html>"))
      as [r' ->].
    apply isDocument_doctype.
Qed.

Lemma fullHtml_of_document (a : Artifact) :
  Files.isDocument (Js.trim (code a)) = true ->
  App.fullHtml a = Js.trim (code a) /\ PreviewCard.getFullHtml a = Js.trim (code a).
Proof.
  intros H. unfold App.fullHtml, PreviewCard.getFullHtml. rewrite H.
  unfold Files.isDocument in H. rewrite <- negb_orb, H. auto.
Qed.

Lemma fullHtml_of_fragment (a : Artifact) :
  Files.isDocument (Js.trim (code a)) = false ->
  App.fullHtml a
  = Files.wrapperHead (title a) ++
    "<body style=" ++ Js.dq ++ "margin:0;padding:0;" ++ Js.dq ++ ">"
    ++ Js.nl ++ Js.trim (code a) ++ Js.nl ++ "</body>" ++ Js.nl ++ "</html>"
  /\ PreviewCard.getFullHtml a
     = Files.wrapperHead (title a) ++
       "<body style=" ++ Js.dq ++ "margin:0;padding:0;background:#fff;" ++ Js.dq ++ ">"
       ++ Js.nl ++ code a ++ Js.nl ++ "</body>" ++ Js.nl ++ "</html>".
Proof.
  intros H. unfold App.fullHtml, PreviewCard.getFullHtml. rewrite H.
  unfold Files.isDocument in H. rewrite <- negb_orb, H. auto.
Qed.

Section Downloads.

Variable parseFromString : string -> res document.

(** X9.  The artifacts of a split are written to their files as they are:
    both download paths return the code of such an artifact unchanged. *)
Theorem X9_split_artifacts_are_written_verbatim
    (now : Z) (block : string) (i : nat) (doc : document) (targets : list node)
    (a : Artifact) :
  parseFromString block = inr doc ->
  peel (getMeaningfulChildren (body doc)) = inr targets ->
  (1 < length targets)%nat ->
  In a (snd (processBlock parseFromString now block i [])) ->
  PreviewCard.getFullHtml a = code a /\ App.fullHtml a = code a.
Proof.
  intros Hparse Hpeel Hlen. rewrite processBlock_spec. simpl.
  assert (Han : analyse parseFromString block = inr (innerHTML (head doc), targets)).
  { unfold analyse. rewrite Hparse. simpl. now rewrite Hpeel. }
  unfold blockOutput. rewrite Han.
  apply Nat.ltb_lt in Hlen. rewrite Hlen.
  intros H. apply in_mapFrom in H. destruct H as [child [k [Hc ->]]].
  assert (Hd : Files.isDocument
                 (Js.trim (code (splitArtifact now (innerHTML (head doc)) i child k))) = true).
  { cbn [code splitArtifact]. rewrite splitCode_trimmed.
    destruct (splitCode_starts (innerHTML (head doc)) child) as [r' ->].
    apply isDocument_doctype. }
  destruct (fullHtml_of_document _ Hd) as [-> ->].
  cbn [code splitArtifact]. now rewrite splitCode_trimmed.
Qed.

End Downloads.

Lemma X9_witness :
  map (fun a => String.eqb (App.fullHtml a) (code a))
      (snd (processBlock Mini.parseFromString 0 Sample.cardWrapper 0 []))
  = [true; true].
Proof.
  assert (H : forall a,
             In a (snd (processBlock Mini.parseFromString 0 Sample.cardWrapper 0 [])) ->
             App.fullHtml a = code a).
  { intros a Ha.
    apply (@X9_split_artifacts_are_written_verbatim Mini.parseFromString 0
             Sample.cardWrapper 0 Sample.cardWrapperDocument
             [Sample.firstCard; Sample.secondCard] a);
      [vm_compute; reflexivity|vm_compute; reflexivity|simpl; lia|exact Ha]. }
  destruct (snd (processBlock Mini.parseFromString 0 Sample.cardWrapper 0 []))
    as [|x [|y [|z l]]] eqn:E; try (vm_compute in E; discriminate E).
  simpl. rewrite (H x), (H y), !String.eqb_refl by (simpl; tauto). reflexivity.
Defined.

(** X10.  The batch download and the download button of a card write the
    same document exactly when the trimmed code already is a document;
    around a fragment the two wrappers differ. *)
Theorem X10_batch_and_card_downloads (a : Artifact) :
  App.fullHtml a = PreviewCard.getFullHtml a
  <-> Files.isDocument (Js.trim (code a)) = true.
Proof.
  split.
  - intros E. destruct (Files.isDocument (Js.trim (code a))) eqn:H; [reflexivity|].
    destruct (fullHtml_of_fragment _ H) as [E1 E2]. rewrite E1, E2 in E.
    apply append_inv_head in E. simpl in E. discriminate E.
  - intros H. destruct (fullHtml_of_document _ H) as [-> ->]. reflexivity.
Qed.

(* ================================================================== *)
(** * The outcome of processing an input *)
(* ================================================================== *)

(** X11.  After [processInput] the state depends on the input only: it is
    the error state with the no-content message and no artifacts exactly
    when no block was detected, and otherwise the complete state holding the
    extracted artifacts, of which there is at least one. *)
Theorem X11_process_input_outcome
    (parseFromString : string -> res document) (now : Z) (text : string)
    (st : App.State) :
  let st' := App.processInput parseFromString now text st in
  (blocks text = [] ->
   st' = App.mkState []
           (App.mkProcessingState App.error
              (Some "No valid HTML/CSS content found in the input.")))
  /\ (blocks text <> [] ->
      st' = App.mkState (extractArtifacts parseFromString now text)
              (App.mkProcessingState App.complete None)
      /\ App.artifacts st' <> []).
Proof.
  simpl. unfold App.processInput.
  pose proof (outputs_length parseFromString now (blocks text) 0) as Hlen.
  rewrite <- extractArtifacts_spec in Hlen.
  split.
  - intros Hb. rewrite (extractArtifacts_no_block parseFromString now text Hb).
    reflexivity.
  - intros Hb.
    destruct (extractArtifacts parseFromString now text) as [|a l] eqn:E.
    + destruct (blocks text); [congruence|simpl in Hlen; lia].
    + simpl. split; [reflexivity|discriminate].
Qed.

(* ================================================================== *)
(** * Fences: unclosed ones, and the ones written around uploaded files *)
(* ================================================================== *)

Lemma sameCi_refl (w : string) : sameCi w w = true.
Proof.
  induction w as [|a w IH]; simpl; [reflexivity|].
  unfold Re.isCi. now rewrite Ascii.eqb_refl.
Qed.

(** A literal under the flag [i] consumes a text that agrees with it up to
    case, and nothing else. *)
Lemma run_litci_sameCi (w : string) : forall w' bef r g k,
  sameCi w w' = true ->
  Re.run (Re.lit true w) bef (w' ++ r) g k = k (Js.rev_append w' bef) r g.
Proof.
  induction w as [|a w IH]; intros [|b w'] bef r g k H; simpl in H; try discriminate.
  - reflexivity.
  - apply andb_prop in H. destruct H as [Hab Hw].
    cbn [Re.lit Re.run append Js.rev_append]. rewrite Hab. now apply IH.
Qed.

Lemma run_litci_some (w : string) : forall bef s g k o,
  Re.run (Re.lit true w) bef s g k = Some o ->
  exists w' r, s = w' ++ r /\ sameCi w w' = true
               /\ k (Js.rev_append w' bef) r g = Some o.
Proof.
  induction w as [|a w IH]; intros bef s g k o H; cbn [Re.lit Re.run] in H.
  - exists EmptyString, s. auto.
  - destruct s as [|b s]; [discriminate|].
    destruct (Re.isCi a b) eqn:Hab; [|discriminate].
    apply IH in H. destruct H as [w' [r [-> [Hw Hk]]]].
    exists (String b w'), r. simpl. rewrite Hab, Hw. auto.
Qed.

Lemma star_some (greedy : bool) (p : ascii -> bool) k : forall s bef o,
  Re.star greedy p bef s k = Some o ->
  exists u s', s = u ++ s' /\ Js.allUnits p u = true
               /\ k (Js.rev_append u bef) s' = Some o.
Proof.
  induction s as [|a r IH]; intros bef o H; simpl in H.
  - exists EmptyString, EmptyString. simpl.
    destruct greedy; destruct (k bef EmptyString); try discriminate; auto.
  - assert (Hmore : Re.star greedy p (String a bef) r k = Some o -> p a = true ->
              exists u s', String a r = u ++ s' /\ Js.allUnits p u = true
                           /\ k (Js.rev_append u bef) s' = Some o).
    { intros Hs Hp. apply IH in Hs. destruct Hs as [u [s' [-> [Hu Hk]]]].
      exists (String a u), s'. simpl. rewrite Hp, Hu. auto. }
    assert (Hstop : k bef (String a r) = Some o ->
              exists u s', String a r = u ++ s' /\ Js.allUnits p u = true
                           /\ k (Js.rev_append u bef) s' = Some o).
    { intros Hk. exists EmptyString, (String a r). auto. }
    destruct greedy.
    + destruct (p a) eqn:Hp.
      * destruct (Re.star true p (String a bef) r k) eqn:Hs.
        -- inversion H; subst. now apply Hmore.
        -- now apply Hstop.
      * now apply Hstop.
    + destruct (k bef (String a r)) eqn:Hk.
      * inversion H; subst. now apply Hstop.
      * destruct (p a) eqn:Hp; [|discriminate]. now apply Hmore.
Qed.



Lemma star_lazy_none (q : ascii -> bool) k :
  (forall b a r, q a = true -> k b (String a r) = None) ->
  (forall b, k b EmptyString = None) ->
  forall u bef, Js.allUnits q u = true -> Re.star false Re.any bef u k = None.
Proof.
  intros Hk Hend. induction u as [|a u IH]; intros bef H; simpl.
  - now rewrite Hend.
  - simpl in H. apply andb_prop in H. destruct H as [Ha Hu].
    rewrite (Hk _ _ _ Ha). unfold Re.any. now apply IH.
Qed.

(** The closing fence cannot start on a unit other than a backtick. *)
Lemma closing_needs_backtick g k b a r :
  negb (Ascii.eqb a "`") = true ->
  Re.run (Re.lit true "```") b (String a r) g k = None.
Proof.
  intros H. cbn [Re.lit Re.run]. rewrite isCi_backtick.
  apply negb_true_iff in H. now rewrite H.
Qed.


Lemma fence_unclosed (rest bef : string) :
  Js.without "`" rest = true ->
  Re.matchHere Pat.fence bef ("```html" ++ rest) = None.
Proof.
  intros Hin. unfold Re.matchHere, Pat.fence. cbn [Re.run].
  rewrite run_litci_sameCi by apply sameCi_refl.
  rewrite (star_lazy_none (fun a => negb (Ascii.eqb a "`"))); try assumption.
  - reflexivity.
  - intros. now apply closing_needs_backtick.
  - reflexivity.
Qed.

Lemma matchAll_pass (r : Re.regex) (c : ascii) :
  (forall bef s,
      match s with String a _ => Ascii.eqb a c = false | EmptyString => True end ->
      Re.matchHere r bef s = None) ->
  forall u tail bef,
    Js.without c u = true ->
    Re.matchAllFrom r bef (u ++ tail) 0 = Re.matchAllFrom r (Js.rev_append u bef) tail 0.
Proof.
  intros Hr. unfold Js.without. induction u as [|a u IH]; intros tail bef H; [reflexivity|].
  simpl in H. apply andb_prop in H. destruct H as [Ha Hu].
  cbn [append Re.matchAllFrom].
  rewrite Hr by (now apply negb_true_iff in Ha). now apply IH.
Qed.


(** X12.  An html fence that is never closed is not a fenced block: when no
    backtick occurs before or after the opening fence, the fence tier finds
    nothing, and detection goes on with the other two tiers. *)
Theorem X12_unclosed_fence_is_no_block (pre rest : string) :
  Js.without "`" pre = true ->
  Js.without "`" rest = true ->
  mdMatches (pre ++ "```html" ++ rest) = []
  /\ blocks (pre ++ "```html" ++ rest)
     = (let text := pre ++ "```html" ++ rest in
        if (0 <? length (rawMatches text))%nat
        then map (fun m => Js.trim (Re.m_text m)) (rawMatches text)
        else if Re.test Pat.markup (Js.trim text)
                && (Js.includes (Js.trim text) "<div" || Js.includes (Js.trim text) "<style")
             then [Js.trim text] else []).
Proof.
  intros Hpre Hrest.
  assert (H : mdMatches (pre ++ "```html" ++ rest) = []).
  { unfold mdMatches, Re.matchAll.
    rewrite (matchAll_pass Pat.fence "`" fence_needs_backtick) by assumption.
    cbn [append Re.matchAllFrom].
    rewrite (fence_unclosed rest _ Hrest).
    replace (Re.matchHere Pat.fence _ (String "`" (String "`" ("html" ++ rest))))
      with (@None Re.rmatch) by (vm_compute; reflexivity).
    replace (Re.matchHere Pat.fence _ (String "`" ("html" ++ rest)))
      with (@None Re.rmatch) by (vm_compute; reflexivity).
    apply (matchAll_none Pat.fence "`" fence_needs_backtick).
    unfold Js.without in *. simpl. exact Hrest. }
  split; [exact H|]. unfold blocks. now rewrite H.
Qed.

Lemma X12_witness :
  blocks ("Here it is:" ++ Js.nl ++ "```html" ++ Js.nl ++ "<div class='card'>cut off")
  = ["Here it is:" ++ Js.nl ++ "```html" ++ Js.nl ++ "<div class='card'>cut off"].
Proof.
  destruct (@X12_unclosed_fence_is_no_block ("Here it is:" ++ Js.nl)
              (Js.nl ++ "<div class='card'>cut off")) as [_ H].
  - vm_compute; reflexivity.
  - vm_compute; reflexivity.
  - change (("Here it is:" ++ Js.nl) ++ "```html" ++ Js.nl ++ "<div class='card'>cut off")
      with ("Here it is:" ++ Js.nl ++ "```html" ++ Js.nl ++ "<div class='card'>cut off") in H.
    rewrite H. vm_compute; reflexivity.
Defined.











(* ================================================================== *)
(** * Raw documents *)
(* ================================================================== *)

Lemma in_matchAll (r : Re.regex) (m : Re.rmatch) : forall s bef skip,
  In m (Re.matchAllFrom r bef s skip) ->
  exists bef' s', Re.matchHere r bef' s' = Some m.
Proof.
  induction s as [|a s IH]; intros bef skip H.
  - destruct skip; cbn [Re.matchAllFrom] in H; [|destruct H].
    destruct (Re.matchHere r bef EmptyString) eqn:E; [|destruct H].
    destruct H as [<-|[]]. eauto.
  - destruct skip; cbn [Re.matchAllFrom] in H; [|eauto].
    destruct (Re.matchHere r bef (String a s)) eqn:E; [|eauto].
    destruct H as [<-|H]; eauto.
Qed.

Lemma isWhite_lower (a : ascii) : Js.isWhite (Js.asciiLower a) = Js.isWhite a.
Proof. destruct a as [[] [] [] [] [] [] [] []]; reflexivity. Qed.

Lemma isCi_white (a b : ascii) : Re.isCi a b = true -> Js.isWhite b = Js.isWhite a.
Proof.
  unfold Re.isCi. intros H. apply Ascii.eqb_eq in H.
  rewrite <- (isWhite_lower b), <- (isWhite_lower a). now rewrite H.
Qed.

Lemma sameCi_notWhite (w : string) : forall w',
  Js.allUnits (fun a => negb (Js.isWhite a)) w = true ->
  sameCi w w' = true ->
  Js.allUnits (fun a => negb (Js.isWhite a)) w' = true.
Proof.
  induction w as [|a w IH]; intros [|b w'] Hw H; simpl in *; try discriminate; auto.
  apply andb_prop in Hw. apply andb_prop in H.
  destruct Hw as [Ha Hw], H as [Hab H].
  rewrite (isCi_white _ _ Hab), Ha. now apply IH.
Qed.

Lemma sameCi_app (p q : string) : forall w',
  sameCi (p ++ q) w' = true ->
  exists w1 w2, w' = w1 ++ w2 /\ sameCi p w1 = true /\ sameCi q w2 = true.
Proof.
  induction p as [|a p IH]; intros w' H.
  - exists EmptyString, w'. auto.
  - destruct w' as [|b w']; simpl in H; [discriminate|].
    apply andb_prop in H. destruct H as [Hab H].
    destruct (IH _ H) as [w1 [w2 [-> [H1 H2]]]].
    exists (String b w1), w2. simpl. rewrite Hab, H1. auto.
Qed.

Lemma sameCi_head (a : ascii) (w w' : string) :
  Js.isWhite a = false -> sameCi (String a w) w' = true ->
  forall r, headNotWhite (w' ++ r).
Proof.
  intros Ha H r. destruct w' as [|b w']; simpl in H; [discriminate|].
  apply andb_prop in H. destruct H as [Hab _]. simpl.
  now rewrite (isCi_white _ _ Hab).
Qed.

Lemma star_greedy_head k (s bef : string) :
  headNotWhite s -> Re.star true Js.isWhite bef s k = k bef s.
Proof. destruct s as [|a r]; simpl; [reflexivity|]. now intros ->. Qed.

Lemma execFrom_here (r : Re.regex) (bef s : string) (m : Re.rmatch) :
  Re.matchHere r bef s = Some m -> Re.execFrom r bef s = Some m.
Proof. intros H. destruct s; cbn [Re.execFrom]; now rewrite H. Qed.

(** White space, then a literal under the flag [i], at the start of a text. *)
Lemma test_start_literal (w w' r : string) :
  sameCi w w' = true -> headNotWhite (w' ++ r) ->
  Re.test (Re.Seq Re.Bol (Re.Seq (Re.Star true Js.isWhite) (Re.lit true w))) (w' ++ r)
  = true.
Proof.
  intros Hw Hh. unfold Re.test, Re.exec.
  erewrite execFrom_here; [reflexivity|].
  unfold Re.matchHere. cbn [Re.run].
  rewrite star_greedy_head by assumption.
  rewrite run_litci_sameCi by assumption. reflexivity.
Qed.

Lemma document_pattern (w : string) bef s g k o :
  Re.run (Re.Seq (Re.lit true w) (Re.Seq (Re.Star false Re.any) (Re.lit true "</html>")))
         bef s g k = Some o ->
  exists w' mid e' r b',
    s = (w' ++ mid ++ e') ++ r
    /\ sameCi w w' = true /\ sameCi "</html>" e' = true
    /\ k b' r g = Some o.
Proof.
  cbn [Re.run]. intros H.
  apply run_litci_some in H. destruct H as [w' [r1 [-> [Hw H]]]].
  apply star_some in H. destruct H as [mid [r2 [-> [_ H]]]].
  apply run_litci_some in H. destruct H as [e' [r [-> [He H]]]].
  exists w', mid, e', r. eexists. split; [|eauto].
  now rewrite !append_assoc.
Qed.

Lemma rawDocument_shape (bef s : string) (m : Re.rmatch) :
  Re.matchHere Pat.rawDocument bef s = Some m ->
  exists w' mid e',
    Re.m_text m = w' ++ mid ++ e'
    /\ (sameCi "<!DOCTYPE html>" w' = true \/ sameCi "<html" w' = true)
    /\ sameCi "</html>" e' = true.
Proof.
  unfold Re.matchHere.
  destruct (Re.run Pat.rawDocument bef s None _) as [o|] eqn:H; [|discriminate].
  intros E. inversion E; subst m. clear E. cbn [Re.m_text].
  unfold Pat.rawDocument in H. cbn [Re.run] in H.
  match type of H with
  | match ?A with Some _ => _ | None => ?B end = _ =>
      destruct A as [o1|] eqn:HA;
      [inversion H; subst o1; clear H;
       change A with
         (Re.run (Re.Seq (Re.lit true "<!DOCTYPE html>")
                    (Re.Seq (Re.Star false Re.any) (Re.lit true "</html>")))
                 bef s None
                 (fun bef' s' _ =>
                    Some (Re.Outcome bef' s'
                            (Some (Js.take (String.length s - String.length s') s)))))
         in HA;
       apply document_pattern in HA
      |change B with
         (Re.run (Re.Seq (Re.lit true "<html")
                    (Re.Seq (Re.Star false Re.any) (Re.lit true "</html>")))
                 bef s None
                 (fun bef' s' _ =>
                    Some (Re.Outcome bef' s'
                            (Some (Js.take (String.length s - String.length s') s)))))
         in H;
       apply document_pattern in H; clear HA; rename H into HA]
  end;
    destruct HA as [w' [mid [e' [r [b' [-> [Hw [He Hk]]]]]]]];
    inversion Hk; subst o; cbn [Re.o_rest];
    exists w', mid, e'; (split; [apply matched_text|]); auto.
Qed.

Lemma raw_text_is_document (w' mid e' : string) :
  sameCi "<!DOCTYPE html>" w' = true \/ sameCi "<html" w' = true ->
  sameCi "</html>" e' = true ->
  Js.trim (w' ++ mid ++ e') = w' ++ mid ++ e'
  /\ Files.isDocument (w' ++ mid ++ e') = true.
Proof.
  intros Hw He.
  assert (Hh : forall r, headNotWhite (w' ++ r)).
  { destruct Hw as [H|H]; exact (sameCi_head "<" _ _ eq_refl H). }
  split.
  - unfold Js.trim. rewrite trimStart_fixed by apply Hh.
    rewrite <- append_assoc. apply trimEnd_keeps_end.
    + rewrite <- (append_nil_r e') at 1.
      rewrite trimEnd_app; [apply append_nil_r|].
      now apply (sameCi_notWhite "</html>").
    + destruct e'; [discriminate He|discriminate].
  - unfold Files.isDocument. destruct Hw as [H|H].
    + change "<!DOCTYPE html>" with ("<!DOCTYPE" ++ " html>") in H.
      apply sameCi_app in H. destruct H as [w1 [w2 [-> [H1 _]]]].
      rewrite append_assoc in *.
      unfold Files.doctypeStart. rewrite test_start_literal; [reflexivity|exact H1|].
      rewrite <- append_assoc. apply Hh.
    + unfold Files.htmlStart. rewrite (test_start_literal "<html" w') by auto.
      apply orb_true_r.
Qed.

(** X14.  When the raw-document tier decides, every block is a trimmed span
    that starts with a doctype or an html tag and ends with the closing html
    tag; an artifact that carries such a block as its code is written to its
    file unchanged by both download paths. *)
Theorem X14_raw_documents_are_written_verbatim (text : string) (a : Artifact) :
  mdMatches text = [] ->
  rawMatches text <> [] ->
  In (code a) (blocks text) ->
  Files.isDocument (code a) = true
  /\ (exists w' mid e', code a = w' ++ mid ++ e' /\ sameCi "</html>" e' = true)
  /\ App.fullHtml a = code a
  /\ PreviewCard.getFullHtml a = code a.
Proof.
  intros Hmd Hraw Hin.
  assert (Hb : blocks text = map (fun m => Js.trim (Re.m_text m)) (rawMatches text)).
  { unfold blocks. rewrite Hmd. destruct (rawMatches text); [congruence|reflexivity]. }
  rewrite Hb in Hin. apply in_map_iff in Hin. destruct Hin as [m [Hm Hin]].
  apply in_matchAll in Hin. destruct Hin as [bef' [s' Hhere]].
  apply rawDocument_shape in Hhere.
  destruct Hhere as [w' [mid [e' [Ht [Hw He]]]]].
  destruct (raw_text_is_document w' mid e' Hw He) as [Htrim Hdoc].
  rewrite Ht, Htrim in Hm.
  assert (Hd : Files.isDocument (Js.trim (code a)) = true).
  { rewrite <- Hm, Htrim. exact Hdoc. }
  destruct (fullHtml_of_document _ Hd) as [E1 E2].
  rewrite <- Hm in *. rewrite Htrim in *.
  split; [exact Hdoc|]. split; [exists w', mid, e'; auto|]. auto.
Qed.

Lemma X14_witness :
  App.fullHtml (blockArtifact 0 Sample.longTitleDocument 0) = Sample.longTitleDocument.
Proof.
  destruct (@X14_raw_documents_are_written_verbatim Sample.longTitleDocument
              (blockArtifact 0 Sample.longTitleDocument 0)) as [_ [_ [H _]]].
  - vm_compute; reflexivity.
  - vm_compute. discriminate.
  - vm_compute. left. reflexivity.
  - exact H.
Defined.

(* ================================================================== *)
(** * Instances of the extraction properties *)
(* ================================================================== *)

Lemma X2_witness :
  map (fun a => String.eqb (Js.trim (code a)) (code a))
      (extractArtifacts Mini.parseFromString 0 Sample.cardWrapper)
  = [true; true].
Proof.
  assert (H : forall a,
             In a (extractArtifacts Mini.parseFromString 0 Sample.cardWrapper) ->
             Js.trim (code a) = code a).
  { intros a Ha.
    exact (@X2_code_is_trimmed Mini.parseFromString 0 Sample.cardWrapper a Ha). }
  destruct (extractArtifacts Mini.parseFromString 0 Sample.cardWrapper)
    as [|x [|y [|z l]]] eqn:E; try (vm_compute in E; discriminate E).
  simpl. rewrite (H x), (H y), !String.eqb_refl by (simpl; tauto). reflexivity.
Defined.

Lemma X3_witness :
  map (fun a => (String.length (title a) <=? 33)%nat)
      (snd (processBlock Mini.parseFromString 0 Sample.cardWrapper 0 []))
  = [true; true].
Proof.
  assert (H : forall a,
             In a (snd (processBlock Mini.parseFromString 0 Sample.cardWrapper 0 [])) ->
             (String.length (title a) <= 33)%nat).
  { intros a Ha.
    destruct (@X3_split_titles_obey_the_rule Mini.parseFromString 0
                Sample.cardWrapper 0 Sample.cardWrapperDocument
                [Sample.firstCard; Sample.secondCard] a) as [_ [Hl _]];
      [vm_compute; reflexivity|vm_compute; reflexivity|simpl; lia|exact Ha|exact Hl]. }
  destruct (snd (processBlock Mini.parseFromString 0 Sample.cardWrapper 0 []))
    as [|x [|y [|z l]]] eqn:E; try (vm_compute in E; discriminate E).
  simpl.
  rewrite (proj2 (Nat.leb_le _ _) (H x (or_introl eq_refl))).
  rewrite (proj2 (Nat.leb_le _ _) (H y (or_intror (or_introl eq_refl)))).
  reflexivity.
Defined.

